(** * robino/util/md: markdown processing (src/util/md/mod.ts)

    Shallow embedding of the two revisions of the module that the
    repository carries: the synchronous [process] (highlight.js) and the
    asynchronous [processMarkdown] (shiki), with the helpers they share,
    [getHeadings] and [getFrontmatter].

    JavaScript strings are sequences of UTF-16 code units; they are
    modelled as lists of [N].  The libraries the module imports (js-yaml,
    zod, marked, highlight.js, shiki) and the one string primitive that
    needs the Unicode tables ([String.prototype.toLowerCase]) are
    interfaces: type classes whose instances can be run. *)

From Stdlib Require Import String Ascii.
From Stdlib Require Import List NArith Bool Arith Lia.
Import ListNotations.

Set Implicit Arguments.

(** ** JavaScript strings *)

Module Js.

Local Open Scope N_scope.

Definition codeUnit := N.
Definition jsstring := list codeUnit.

(** A string literal of the source, for literals in the ASCII range. *)
Definition lit (s : string) : jsstring :=
  map N_of_ascii (list_ascii_of_string s).

Definition LF : codeUnit := 10%N.

Definition within (lo hi c : codeUnit) : bool :=
  ((lo <=? c) && (c <=? hi))%N.

(** [\s] of a regular expression without the [u] flag, which is also the
    set [String.prototype.trim] strips: WhiteSpace and LineTerminator. *)
Definition isWhiteSpace (c : codeUnit) : bool :=
  within 9 13 c || (c =? 32)%N || (c =? 160)%N || (c =? 5760)%N
  || within 8192 8202 c || (c =? 8232)%N || (c =? 8233)%N
  || (c =? 8239)%N || (c =? 8287)%N || (c =? 12288)%N || (c =? 65279)%N.

(** The code units [.] does not match (no [s] flag). *)
Definition isLineTerminator (c : codeUnit) : bool :=
  (c =? 10)%N || (c =? 13)%N || (c =? 8232)%N || (c =? 8233)%N.

(** [\w] is [[A-Za-z0-9_]]. *)
Definition isWordChar (c : codeUnit) : bool :=
  within 48 57 c || within 65 90 c || (c =? 95)%N || within 97 122 c.

Definition isUpperAscii (c : codeUnit) : bool := within 65 90 c.
Definition isAscii (c : codeUnit) : bool := (c <? 128)%N.

Definition hyphen : codeUnit := 45%N.
Definition hash : codeUnit := 35%N.
Definition backtick : codeUnit := 96%N.

Fixpoint takeWhile (p : codeUnit -> bool) (s : jsstring) : jsstring :=
  match s with
  | [] => []
  | c :: s' => if p c then c :: takeWhile p s' else []
  end.

Fixpoint dropWhile (p : codeUnit -> bool) (s : jsstring) : jsstring :=
  match s with
  | [] => []
  | c :: s' => if p c then dropWhile p s' else s
  end.

Fixpoint startsWith (s p : jsstring) : bool :=
  match p, s with
  | [], _ => true
  | a :: p', b :: s' => (a =? b)%N && startsWith s' p'
  | _ :: _, [] => false
  end.

(** [s === t] *)
Fixpoint eqb (s t : jsstring) : bool :=
  match s, t with
  | [], [] => true
  | a :: s', b :: t' => (a =? b)%N && eqb s' t'
  | _, _ => false
  end.

(** [s.includes(p)] *)
Fixpoint includes (s p : jsstring) : bool :=
  startsWith s p ||
  match s with
  | [] => false
  | _ :: s' => includes s' p
  end.

Definition isEmpty (s : jsstring) : bool :=
  match s with [] => true | _ => false end.

(** [s.trim()] *)
Definition trimStart (s : jsstring) : jsstring := dropWhile isWhiteSpace s.
Definition trimEnd (s : jsstring) : jsstring :=
  rev (dropWhile isWhiteSpace (rev s)).
Definition trim (s : jsstring) : jsstring := trimEnd (trimStart s).

Definition consHead (c : codeUnit) (segs : list jsstring) : list jsstring :=
  match segs with
  | seg :: segs' => (c :: seg) :: segs'
  | [] => [[c]]
  end.

(** [s.split(sep)] for a non-empty separator: the segments between the
    occurrences of [sep] found left to right, an occurrence starting only
    after the previous one has ended.  [skip] counts the code units of a
    matched separator still to pass over. *)
Fixpoint splitFrom (sep : jsstring) (skip : nat) (s : jsstring) : list jsstring :=
  match s with
  | [] => [[]]
  | c :: s' =>
      match skip with
      | S k => splitFrom sep k s'
      | O =>
          if startsWith s sep
          then [] :: splitFrom sep (length sep - 1)%nat s'
          else consHead c (splitFrom sep 0 s')
      end
  end.

(** With the empty separator [split] gives the code units one by one. *)
Definition split (s sep : jsstring) : list jsstring :=
  match sep with
  | [] => map (fun c => [c]) s
  | _ :: _ => splitFrom sep 0 s
  end.

(** [segs.join(sep)] *)
Fixpoint join (segs : list jsstring) (sep : jsstring) : jsstring :=
  match segs with
  | [] => []
  | [seg] => seg
  | seg :: segs' => seg ++ sep ++ join segs' sep
  end.

(** [s.replace(/\s+/g, "-")]: [inRun] tells that the previous code
    unit was white space, already replaced. *)
Fixpoint replaceWhiteSpaceRuns (inRun : bool) (s : jsstring) : jsstring :=
  match s with
  | [] => []
  | c :: s' =>
      if isWhiteSpace c
      then (if inRun then replaceWhiteSpaceRuns true s'
            else hyphen :: replaceWhiteSpaceRuns true s')
      else c :: replaceWhiteSpaceRuns false s'
  end.

(** [s.replace(/[^\w-]+/g, "")]: what stays is [[\w-]]. *)
Definition idChar (c : codeUnit) : bool := isWordChar c || (c =? hyphen)%N.

Definition removeNonWord (s : jsstring) : jsstring := filter idChar s.

(** [toLowerCase] on the ASCII range, and on Latin-1. *)
Definition lowerAscii (c : codeUnit) : codeUnit :=
  if within 65 90 c then (c + 32)%N else c.

Definition lowerLatin1 (c : codeUnit) : codeUnit :=
  if within 65 90 c then (c + 32)%N
  else if within 192 222 c && negb (c =? 215)%N then (c + 32)%N
  else c.

(** [String.prototype.toLowerCase] follows the Unicode case mappings, which
    are not reproduced here.  The interface fixes what the module relies
    on: ASCII strings are lowered letter by letter, and no result holds an
    ASCII capital. *)
Class Casing := {
  toLowerCase : jsstring -> jsstring;
  toLowerCase_ascii :
    forall s, forallb isAscii s = true -> toLowerCase s = map lowerAscii s;
  toLowerCase_lower :
    forall s, forallb (fun c => negb (isUpperAscii c)) (toLowerCase s) = true
}.

End Js.

Import Js.

(** ** The heading scanner: [getHeadings] *)

Record Heading := mkHeading {
  id : jsstring;
  level : nat;
  name : jsstring
}.

(** [hi, hi-1, ..., lo]: the order in which a greedy quantifier gives back
    what it matched. *)
Definition descending (hi lo : nat) : list nat :=
  rev (seq lo (S hi - lo)).

Fixpoint firstSome {A B : Type} (f : A -> option B) (l : list A) : option B :=
  match l with
  | [] => None
  | a :: l' => match f a with
               | Some b => Some b
               | None => firstSome f l'
               end
  end.

(** [/^```/.test(line)] *)
Definition codeFenceRegex_test (line : jsstring) : bool :=
  startsWith line [backtick; backtick; backtick].

(** [/^(#{1,6})\s*(.+)/.exec(line)], the two groups of the match.  The
    hashes are tried from the longest run of at most six down to one, the
    white space from the longest run down to none, and [.+] takes every
    code unit up to the first line terminator and needs one at least. *)
Definition headingRegex_exec (line : jsstring) : option (jsstring * jsstring) :=
  let hashes := length (takeWhile (N.eqb hash) line) in
  firstSome
    (fun h =>
       let rest := skipn h line in
       let spaces := length (takeWhile isWhiteSpace rest) in
       firstSome
         (fun w =>
            let rest' := takeWhile (fun c => negb (isLineTerminator c)) (skipn w rest) in
            if isEmpty rest' then None else Some (firstn h line, rest'))
         (descending spaces 0))
    (descending (Nat.min hashes 6) 1).

(** A line that toggles [inCodeFence], and how many of the lines do. *)
Definition isFenceLine (line : jsstring) : bool :=
  codeFenceRegex_test (trim line).

Definition countFences (lines : list jsstring) : nat :=
  length (filter isFenceLine lines).

(** A string that [split("\n")] gives back as one line. *)
Definition isLine (line : jsstring) : bool :=
  forallb (fun c => negb (c =? LF)%N) line.

Section Headings.

Context {casing : Casing}.

(** [name.trim().toLowerCase().replace(/\s+/g, "-").replace(/[^\w-]+/g, "")] *)
Definition headingId (name : jsstring) : jsstring :=
  removeNonWord (replaceWhiteSpaceRuns false (toLowerCase (trim name))).

(** The body of the loop over the lines; the state is [inCodeFence] and
    the headings pushed so far. *)
Definition scanLine (st : bool * list Heading) (line : jsstring)
  : bool * list Heading :=
  let '(inCodeFence, headings) := st in
  let line := trim line in
  if codeFenceRegex_test line then (negb inCodeFence, headings)
  else if inCodeFence then (inCodeFence, headings)
  else
    match headingRegex_exec line with
    | Some (hashes, name) =>
        let level := length hashes in
        if negb (level =? 0) && negb (isEmpty name)
        then (inCodeFence,
              headings ++ [ {| id := headingId name; level := level; name := name |} ])
        else (inCodeFence, headings)
    | None => (inCodeFence, headings)
    end.

(** What a line outside a fence adds. *)
Definition headingsOfLine (line : jsstring) : list Heading :=
  snd (scanLine (false, []) line).

(** The loop, from [inCodeFence = false] and no heading. *)
Definition scanLines (lines : list jsstring) : list Heading :=
  snd (fold_left scanLine lines (false, [])).

Definition getHeadings (md : jsstring) : list Heading :=
  scanLines (split md [LF]).

End Headings.

(** ** Exceptions *)

(** What a call throws: the module's own [new Error(message)], or whatever
    one of the libraries throws. *)
Inductive Exception (LibError : Type) :=
| Error (message : jsstring)
| Thrown (e : LibError).

Arguments Error {LibError} message.
Arguments Thrown {LibError} e.

Definition Result (LibError A : Type) : Type := Exception LibError + A.

Definition ret {E A : Type} (a : A) : Result E A := inr a.
Definition throw {E A : Type} (e : Exception E) : Result E A := inl e.
Definition bind {E A B : Type} (r : Result E A) (k : A -> Result E B) : Result E B :=
  match r with
  | inl e => inl e
  | inr a => k a
  end.

Declare Scope result_scope.
Delimit Scope result_scope with result.
Notation "x <- r ;; k" := (bind r (fun x => k))
  (at level 61, r at next level, right associativity) : result_scope.
Local Open Scope result_scope.

(** ** The libraries *)

(** The options handed to [markedHighlight]. *)
Record MarkedHighlightOptions (LibError : Type) := {
  async : bool;
  langPrefix : option jsstring;
  highlight : jsstring -> jsstring -> Result LibError jsstring
}.

(** shiki's [CodeToHastOptions]: the language, the theme (by name), and the
    options the module never touches.  In a [Partial] of it, a key that is
    absent is [None]. *)
Record CodeToHastOptions (Extra : Type) := {
  lang : jsstring;
  theme : jsstring;
  extra : option Extra
}.

Record PartialCodeToHastOptions (Extra : Type) := {
  lang_opt : option jsstring;
  theme_opt : option jsstring;
  extra_opt : option Extra
}.

(** [Object.assign(options, shiki)]: the keys present in [shiki] replace
    those of [options]; an [undefined] source changes nothing. *)
Definition Object_assign {Extra : Type} (options : CodeToHastOptions Extra)
    (shiki : option (PartialCodeToHastOptions Extra)) : CodeToHastOptions Extra :=
  match shiki with
  | None => options
  | Some p =>
      {| lang := match lang_opt p with Some l => l | None => lang options end;
         theme := match theme_opt p with Some t => t | None => theme options end;
         extra := match extra_opt p with Some x => Some x | None => extra options end |}
  end.

(** js-yaml's [load], [JSON.stringify(issue, null, 4)] on a zod issue (it
    throws on a value it cannot serialise, a BigInt for one),
    highlight.js ([hljs.getLanguage(lang)] as the truth value the module
    tests, [hljs.highlight(code, { language }).value]), shiki's
    [codeToHtml], and [marked.parse] of a renderer set up with
    [gfmHeadingId()], [markedSmartypants()] and [markedHighlight] of the
    given options.  An awaited promise that rejects is a call that throws. *)
Class Libraries := {
  LibError : Type;
  YamlValue : Type;
  ZodIssue : Type;
  ShikiExtra : Type;
  load : jsstring -> Result LibError YamlValue;
  JSON_stringify : ZodIssue -> Result LibError jsstring;
  hljs_getLanguage : jsstring -> bool;
  hljs_highlight : jsstring -> jsstring -> Result LibError jsstring;
  codeToHtml : jsstring -> CodeToHastOptions ShikiExtra -> Result LibError jsstring;
  marked_parse : MarkedHighlightOptions LibError -> jsstring -> Result LibError jsstring
}.

(** The frontmatter fence. *)
Definition delimiter : jsstring := Eval cbv in lit "---".

(** A value of type [string | undefined] used as a condition. *)
Definition truthy (s : option jsstring) : bool :=
  match s with
  | Some (_ :: _) => true
  | _ => false
  end.

Definition noYamlMessage : jsstring :=
  lit "No yaml found." ++ [LF; LF] ++
  lit "Please ensure your frontmatter is at the beginning of your file and is surrounded by fences `---`".

Definition invalidFrontmatterMessage (issue : jsstring) : jsstring :=
  lit "Invalid frontmatter, please correct or update schema in src/schemas:"
  ++ [LF; LF] ++ issue.

Section Frontmatter.

Context {libs : Libraries}.

(** What [schema.safeParse] returns: [{ success: true, data }] or
    [{ success: false, error }], of which only [error.issues] is read. *)
Inductive SafeParseReturn (T : Type) :=
| ParseSuccess (data : T)
| ParseFailure (issues : list ZodIssue).

Arguments ParseSuccess {T} data.
Arguments ParseFailure {T} issues.

Record ZodSchema (T : Type) := {
  safeParse : YamlValue -> SafeParseReturn T
}.

(** [`${JSON.stringify(issues[0], null, 4)}`]: of [undefined],
    [JSON.stringify] gives [undefined], which the template prints. *)
Definition stringifyFirst (issues : list ZodIssue) : Result LibError jsstring :=
  match issues with
  | issue :: _ => JSON_stringify issue
  | [] => ret (lit "undefined")
  end.

Definition getFrontmatter {T : Type} (yaml : jsstring) (frontmatterSchema : ZodSchema T)
  : Result LibError T :=
  loaded <- load yaml ;;
  match safeParse frontmatterSchema loaded with
  | ParseSuccess data => ret data
  | ParseFailure issues =>
      text <- stringifyFirst issues ;;
      throw (Error (invalidFrontmatterMessage text))
  end.

End Frontmatter.

Arguments ParseSuccess {libs T} data.
Arguments ParseFailure {libs T} issues.

(** ** [process]: the revision on highlight.js *)

Module Sync.
Section Process.

Context {casing : Casing} {libs : Libraries}.

(** The [highlight] callback registered with [markedHighlight]. *)
Definition highlightLanguage (lang : jsstring) : jsstring :=
  if hljs_getLanguage lang then lang
  else if Js.eqb lang (lit "svelte") then lit "html"
  else lit "plaintext".

Definition highlightCode (code lang : jsstring) : Result LibError jsstring :=
  hljs_highlight code (highlightLanguage lang).

Definition highlightOptions : MarkedHighlightOptions LibError :=
  {| async := false;
     langPrefix := Some (lit "hljs language-");
     highlight := highlightCode |}.

Record Data (T : Type) := {
  article : jsstring;
  headings : list Heading;
  html : jsstring;
  frontmatter : option T
}.

Definition process {T : Type} (md : jsstring) (frontmatterSchema : option (ZodSchema T))
  : Result LibError (Data T) :=
  let split := Js.split md delimiter in
  let yaml := nth_error split 1 in
  let article := if truthy yaml then join (skipn 2 split) delimiter else md in
  let headings := getHeadings article in
  html <- marked_parse highlightOptions article ;;
  let data := {| article := article; headings := headings; html := html;
                 frontmatter := None |} in
  match frontmatterSchema with
  | Some schema =>
      match yaml with
      | Some ((_ :: _) as yaml) =>
          parsed <- getFrontmatter yaml schema ;;
          ret {| article := article; headings := headings; html := html;
                 frontmatter := Some parsed |}
      | _ => throw (Error noYamlMessage)
      end
  | None => ret data
  end.

End Process.
End Sync.

(** ** [processMarkdown]: the revision on shiki *)

Module Async.
Section ProcessMarkdown.

Context {casing : Casing} {libs : Libraries}.

(** The [highlight] callback: the language marked reads from the fence,
    the default theme, then whatever the caller's [shiki] option sets. *)
Definition highlightCode (shiki : option (PartialCodeToHastOptions ShikiExtra))
    (code lang : jsstring) : Result LibError jsstring :=
  let options := {| lang := lang; theme := lit "github-dark-default"; extra := None |} in
  codeToHtml code (Object_assign options shiki).

Definition highlightOptions (shiki : option (PartialCodeToHastOptions ShikiExtra))
  : MarkedHighlightOptions LibError :=
  {| async := true; langPrefix := None; highlight := highlightCode shiki |}.

(** [frontmatter] is the parsed data or the literal [{}]. *)
Inductive Frontmatter (T : Type) :=
| EmptyObject
| Parsed (data : T).

Arguments EmptyObject {T}.

Record MdData (T : Type) := {
  article : jsstring;
  headings : list Heading;
  html : jsstring;
  frontmatter : Frontmatter T
}.

Record Options (T : Type) := {
  md : jsstring;
  shiki : option (PartialCodeToHastOptions ShikiExtra);
  frontmatterSchema : option (ZodSchema T)
}.

Definition processMarkdown {T : Type} (options : Options T)
  : Result LibError (MdData T) :=
  let md := md options in
  let split := Js.split md delimiter in
  let yaml := nth_error split 1 in
  let shouldProcessFrontmatter :=
    match yaml, frontmatterSchema options with
    | Some ((_ :: _) as yaml), Some schema => Some (yaml, schema)
    | _, _ => None
    end in
  let article :=
    match shouldProcessFrontmatter with
    | Some _ => join (skipn 2 split) delimiter
    | None => md
    end in
  frontmatter <-
    match shouldProcessFrontmatter with
    | Some (yaml, schema) =>
        parsed <- getFrontmatter yaml schema ;; ret (Parsed parsed)
    | None => ret EmptyObject
    end ;;
  let headings := getHeadings article in
  html <- marked_parse (highlightOptions (shiki options)) article ;;
  ret {| article := article; headings := headings; html := html;
         frontmatter := frontmatter |}.

End ProcessMarkdown.

Arguments EmptyObject {T}.

End Async.

(** ** Instances to run the module on

    Lower-casing on Latin-1 (the capitals are A-Z and U+00C0-U+00DE without
    the multiplication sign), and small stand-ins for the libraries: a
    loader that takes the block as one scalar; highlight.js with four of
    the languages of its common bundle, which has no "svelte"; shiki with
    some of the languages it bundles, "svelte" among them; both throw on a
    language they do not have; issues that are serialised to a text, and
    one that holds a BigInt, on which [JSON.stringify] throws; and a
    renderer that wraps the article in a paragraph. *)

Definition latin1Casing : Casing.
Proof.
  refine {| toLowerCase := map lowerLatin1 |}.
  - induction s as [|c s IH]; simpl; [reflexivity|].
    intros H. apply andb_prop in H. destruct H as [Hc Hs].
    rewrite (IH Hs). f_equal.
    unfold lowerLatin1, lowerAscii, within, isAscii in *.
    destruct ((65 <=? c)%N && (c <=? 90)%N) eqn:E; [reflexivity|].
    destruct ((192 <=? c)%N && (c <=? 222)%N && negb (c =? 215)%N) eqn:E2;
      [|reflexivity].
    apply andb_prop in E2. destruct E2 as [E2 _].
    apply andb_prop in E2. destruct E2 as [E2 _].
    apply N.leb_le in E2. apply N.ltb_lt in Hc. lia.
  - induction s as [|c s IH]; simpl; [reflexivity|].
    rewrite IH, andb_true_r.
    unfold lowerLatin1, isUpperAscii, within.
    destruct ((65 <=? c)%N && (c <=? 90)%N) eqn:E.
    + apply andb_prop in E. destruct E as [E1 E2]. apply N.leb_le in E1.
      apply negb_true_iff, andb_false_iff. right. apply N.leb_gt. lia.
    + destruct ((192 <=? c)%N && (c <=? 222)%N && negb (c =? 215)%N) eqn:E2.
      * apply andb_prop in E2. destruct E2 as [E2 _].
        apply andb_prop in E2. destruct E2 as [E2 _].
        apply N.leb_le in E2.
        apply negb_true_iff, andb_false_iff. right. apply N.leb_gt. lia.
      * rewrite E. reflexivity.
Defined.

Definition sampleLanguages : list jsstring :=
  [lit "plaintext"; lit "html"; lit "xml"; lit "javascript"].

Definition sampleKnows (language : jsstring) : bool :=
  existsb (Js.eqb language) sampleLanguages.

Definition sampleHighlight (code language : jsstring) : Result jsstring jsstring :=
  if sampleKnows language
  then ret (lit "<span class=" ++ language ++ lit ">" ++ code ++ lit "</span>")
  else throw (Thrown (lit "Unknown language: " ++ language)).

Definition sampleShikiLanguages : list jsstring :=
  [lit "svelte"; lit "html"; lit "css"; lit "javascript"; lit "typescript";
   lit "text"; lit "plaintext"].

Definition sampleCodeToHtml (code : jsstring) (options : CodeToHastOptions unit)
  : Result jsstring jsstring :=
  if existsb (Js.eqb (lang options)) sampleShikiLanguages
  then ret (lit "<pre class=shiki><code>" ++ code ++ lit "</code></pre>")
  else throw (Thrown (lit "Language `" ++ lang options ++ lit "` not found")).

Inductive SampleIssue :=
| Issue (text : jsstring)
| BigIntIssue (minimum : N).

Definition sampleStringify (issue : SampleIssue) : Result jsstring jsstring :=
  match issue with
  | Issue text => ret text
  | BigIntIssue _ => throw (Thrown (lit "Do not know how to serialize a BigInt"))
  end.

Definition sampleLibraries : Libraries := {|
  LibError := jsstring;
  YamlValue := jsstring;
  ZodIssue := SampleIssue;
  ShikiExtra := unit;
  load := fun yaml => ret (trim yaml);
  JSON_stringify := sampleStringify;
  hljs_getLanguage := sampleKnows;
  hljs_highlight := sampleHighlight;
  codeToHtml := sampleCodeToHtml;
  marked_parse := fun _ article => ret (lit "<p>" ++ article ++ lit "</p>")
|}.

(** A schema that accepts every value, one that reports two issues, and one
    whose first issue holds a BigInt (the bound of a [z.bigint().min]). *)
Definition acceptingSchema : ZodSchema (libs := sampleLibraries) jsstring :=
  {| safeParse := fun loaded => ParseSuccess (libs := sampleLibraries) loaded |}.

Definition rejectingSchema : ZodSchema (libs := sampleLibraries) jsstring :=
  {| safeParse := fun _ =>
       ParseFailure (libs := sampleLibraries)
         [Issue (lit "title: Required"); Issue (lit "date: Required")] |}.


(** * Properties *)

Unset Implicit Arguments.

(** ** Code units and strings *)

Ltac to_prop :=
  repeat rewrite ?orb_true_iff, ?andb_true_iff, ?negb_true_iff,
    ?orb_false_iff, ?andb_false_iff, ?negb_false_iff,
    ?N.leb_le, ?N.leb_gt, ?N.eqb_eq, ?N.eqb_neq, ?N.ltb_lt, ?N.ltb_ge in *.

Lemma idChar_not_space c : idChar c = true -> isWhiteSpace c = false.
Proof.
  intros H. apply not_true_is_false. intros W. revert H W.
  unfold idChar, isWordChar, isWhiteSpace, within, hyphen.
  to_prop. lia.
Qed.

Lemma idChar_ascii c : idChar c = true -> isAscii c = true.
Proof.
  unfold idChar, isWordChar, isAscii, within, hyphen. to_prop. lia.
Qed.

Lemma lowerAscii_fix c : isUpperAscii c = false -> lowerAscii c = c.
Proof.
  unfold lowerAscii, isUpperAscii. intros ->. reflexivity.
Qed.

Lemma eqb_eq (s t : jsstring) : Js.eqb s t = true <-> s = t.
Proof.
  revert t. induction s as [|a s IH]; intros [|b t]; simpl; split;
    try congruence; try reflexivity.
  - intros H. apply andb_prop in H. destruct H as [H1 H2].
    apply N.eqb_eq in H1. apply IH in H2. congruence.
  - intros H. injection H as -> ->. rewrite N.eqb_refl. simpl. apply IH. reflexivity.
Qed.

Lemma takeWhile_length p (s : jsstring) : length (takeWhile p s) <= length s.
Proof.
  induction s as [|c s IH]; simpl; [lia|]. destruct (p c); simpl; lia.
Qed.

Lemma dropWhile_none p (s : jsstring) :
  forallb (fun c => negb (p c)) s = true -> dropWhile p s = s.
Proof.
  destruct s as [|c s]; simpl; [reflexivity|].
  intros H. apply andb_prop in H. destruct H as [H _].
  apply negb_true_iff in H. rewrite H. reflexivity.
Qed.

Lemma forallb_rev {A} (p : A -> bool) (l : list A) :
  forallb p (rev l) = forallb p l.
Proof.
  induction l as [|a l IH]; simpl; [reflexivity|].
  rewrite forallb_app, IH. simpl. rewrite andb_true_r. apply andb_comm.
Qed.

Lemma trim_none (s : jsstring) :
  forallb (fun c => negb (isWhiteSpace c)) s = true -> trim s = s.
Proof.
  intros H. unfold trim, trimStart, trimEnd.
  rewrite (dropWhile_none _ _ H).
  rewrite dropWhile_none by (rewrite forallb_rev; exact H).
  apply rev_involutive.
Qed.

Lemma replaceWhiteSpaceRuns_none b (s : jsstring) :
  forallb (fun c => negb (isWhiteSpace c)) s = true ->
  replaceWhiteSpaceRuns b s = s.
Proof.
  revert b. induction s as [|c s IH]; intros b; simpl; [reflexivity|].
  intros H. apply andb_prop in H. destruct H as [Hc Hs].
  apply negb_true_iff in Hc. rewrite Hc. f_equal. apply IH. exact Hs.
Qed.

Lemma replaceWhiteSpaceRuns_lower b (s : jsstring) :
  forallb (fun c => negb (isUpperAscii c)) s = true ->
  forallb (fun c => negb (isUpperAscii c)) (replaceWhiteSpaceRuns b s) = true.
Proof.
  revert b. induction s as [|c s IH]; intros b; simpl; [reflexivity|].
  intros H. apply andb_prop in H. destruct H as [Hc Hs].
  destruct (isWhiteSpace c); [destruct b|]; simpl.
  - apply IH, Hs.
  - apply IH, Hs.
  - rewrite Hc. apply IH, Hs.
Qed.

Lemma forallb_filter {A} (p q : A -> bool) (l : list A) :
  forallb p l = true -> forallb p (filter q l) = true.
Proof.
  induction l as [|a l IH]; simpl; [reflexivity|].
  intros H. apply andb_prop in H. destruct H as [Ha Hl].
  destruct (q a); simpl; rewrite ?Ha; auto.
Qed.

Lemma filter_self {A} (p : A -> bool) (l : list A) : forallb p (filter p l) = true.
Proof.
  induction l as [|a l IH]; simpl; [reflexivity|].
  destruct (p a) eqn:E; simpl; rewrite ?E; auto.
Qed.

Lemma filter_all {A} (p : A -> bool) (l : list A) :
  forallb p l = true -> filter p l = l.
Proof.
  induction l as [|a l IH]; simpl; [reflexivity|].
  intros H. apply andb_prop in H. destruct H as [Ha Hl].
  rewrite Ha, IH by exact Hl. reflexivity.
Qed.

Lemma forallb_impl {A} (p q : A -> bool) (l : list A) :
  (forall a, p a = true -> q a = true) ->
  forallb p l = true -> forallb q l = true.
Proof.
  intros I. induction l as [|a l IH]; simpl; [reflexivity|].
  intros H. apply andb_prop in H. destruct H as [Ha Hl].
  rewrite (I a Ha), IH by exact Hl. reflexivity.
Qed.

Lemma map_fix {A} (f : A -> A) (p : A -> bool) (l : list A) :
  (forall a, p a = true -> f a = a) -> forallb p l = true -> map f l = l.
Proof.
  intros I. induction l as [|a l IH]; simpl; [reflexivity|].
  intros H. apply andb_prop in H. destruct H as [Ha Hl].
  rewrite (I a Ha), IH by exact Hl. reflexivity.
Qed.

Lemma whiteSpace_not_upper c : isWhiteSpace c = true -> isUpperAscii c = false.
Proof.
  intros W. apply not_true_is_false. intros U. revert W U.
  unfold isWhiteSpace, isUpperAscii, within. to_prop. lia.
Qed.

Lemma dropWhile_head p (c : codeUnit) (s : jsstring) :
  p c = false -> dropWhile p (c :: s) = c :: s.
Proof.
  intros H. cbn [dropWhile]. rewrite H. reflexivity.
Qed.

Lemma trim_between (w1 m w2 : jsstring) :
  w1 <> [] -> forallb (fun c => negb (isWhiteSpace c)) w1 = true ->
  w2 <> [] -> forallb (fun c => negb (isWhiteSpace c)) w2 = true ->
  trim (w1 ++ m ++ w2) = w1 ++ m ++ w2.
Proof.
  intros N1 H1 N2 H2. unfold trim, trimStart, trimEnd.
  assert (S : dropWhile isWhiteSpace (w1 ++ m ++ w2) = w1 ++ m ++ w2).
  { destruct w1 as [|c w1]; [congruence|].
    cbn [forallb] in H1. apply andb_prop in H1. destruct H1 as [Hc _].
    apply negb_true_iff in Hc. apply (dropWhile_head _ _ _ Hc). }
  rewrite S, app_assoc, rev_app_distr.
  assert (R : forall x, dropWhile isWhiteSpace (rev w2 ++ x) = rev w2 ++ x).
  { intros x. destruct (rev w2) as [|d r] eqn:E.
    - apply (f_equal (@rev codeUnit)) in E. rewrite rev_involutive in E.
      contradiction.
    - rewrite <- forallb_rev, E in H2. cbn [forallb] in H2.
      apply andb_prop in H2. destruct H2 as [Hd _]. apply negb_true_iff in Hd.
      apply (dropWhile_head _ _ _ Hd). }
  rewrite R, <- rev_app_distr. apply rev_involutive.
Qed.

Lemma replaceWhiteSpaceRuns_word (w t : jsstring) :
  forallb (fun c => negb (isWhiteSpace c)) w = true ->
  replaceWhiteSpaceRuns false (w ++ t) = w ++ replaceWhiteSpaceRuns false t.
Proof.
  induction w as [|c w IH]; [reflexivity|].
  intros H. cbn [forallb] in H. apply andb_prop in H. destruct H as [Hc Hw].
  apply negb_true_iff in Hc.
  cbn [app replaceWhiteSpaceRuns]. rewrite Hc, (IH Hw). reflexivity.
Qed.

Lemma replaceWhiteSpaceRuns_run (ws t : jsstring) :
  forallb isWhiteSpace ws = true ->
  replaceWhiteSpaceRuns true (ws ++ t) = replaceWhiteSpaceRuns true t.
Proof.
  induction ws as [|c ws IH]; [reflexivity|].
  intros H. cbn [forallb] in H. apply andb_prop in H. destruct H as [Hc Hw].
  cbn [app replaceWhiteSpaceRuns]. rewrite Hc. exact (IH Hw).
Qed.

(** ** The regular expressions *)

Lemma firstSome_Some {A B} (f : A -> option B) (l : list A) (b : B) :
  firstSome f l = Some b -> exists a, In a l /\ f a = Some b.
Proof.
  induction l as [|a l IH]; simpl; [discriminate|].
  destruct (f a) eqn:E.
  - intros H. injection H as <-. exists a. auto.
  - intros H. destruct (IH H) as (a' & Hin & Ha'). exists a'. auto.
Qed.

Lemma descending_In (hi lo a : nat) : In a (descending hi lo) -> lo <= a <= hi.
Proof.
  unfold descending. rewrite <- in_rev, in_seq. lia.
Qed.

Lemma headingRegex_exec_groups (line hashes rest : jsstring) :
  headingRegex_exec line = Some (hashes, rest) ->
  1 <= length hashes <= 6 /\ rest <> [].
Proof.
  unfold headingRegex_exec. intros H.
  apply firstSome_Some in H. destruct H as (h & Hh & H).
  apply descending_In in Hh.
  apply firstSome_Some in H. destruct H as (w & _ & H).
  destruct (takeWhile _ (skipn w (skipn h line))) as [|c r] eqn:E;
    simpl in H; [discriminate|].
  injection H as <- <-. split; [|discriminate].
  pose proof (takeWhile_length (N.eqb hash) line) as L.
  rewrite length_firstn. lia.
Qed.

(** ** Lines: [split("\n")] and [join("\n")] *)

Lemma splitFrom_nonempty sep k (s : jsstring) : splitFrom sep k s <> [].
Proof.
  revert k. induction s as [|c s IH]; intros k; simpl; [discriminate|].
  destruct k; [|apply IH].
  match goal with |- context [if ?t then _ else _] => destruct t end;
    [discriminate|].
  specialize (IH 0). destruct (splitFrom sep 0 s); [congruence | simpl; discriminate].
Qed.

Lemma splitFrom_LF (c : codeUnit) (s : jsstring) :
  splitFrom [LF] 0 (c :: s) =
  if (c =? LF)%N then [] :: splitFrom [LF] 0 s
  else consHead c (splitFrom [LF] 0 s).
Proof.
  cbn [splitFrom startsWith length Nat.sub].
  rewrite N.eqb_sym. destruct s; rewrite andb_true_r; reflexivity.
Qed.

Lemma split_line (l : jsstring) : isLine l = true -> split l [LF] = [l].
Proof.
  unfold split. induction l as [|c l IH]; [reflexivity|].
  intros H. cbn [isLine forallb] in H. apply andb_prop in H. destruct H as [Hc Hl].
  apply negb_true_iff in Hc.
  rewrite splitFrom_LF, Hc, (IH Hl). reflexivity.
Qed.

Lemma split_line_app (l t : jsstring) :
  isLine l = true -> split (l ++ LF :: t) [LF] = l :: split t [LF].
Proof.
  unfold split. induction l as [|c l IH].
  - intros _. cbn [app]. rewrite splitFrom_LF, N.eqb_refl. reflexivity.
  - intros H. cbn [isLine forallb] in H. apply andb_prop in H. destruct H as [Hc Hl].
    apply negb_true_iff in Hc.
    cbn [app]. rewrite splitFrom_LF, Hc, (IH Hl). reflexivity.
Qed.

Lemma split_join_lines (ls : list jsstring) :
  ls <> [] -> forallb isLine ls = true -> split (join ls [LF]) [LF] = ls.
Proof.
  induction ls as [|l ls IH]; [congruence|]. intros _ H.
  cbn [forallb] in H. apply andb_prop in H. destruct H as [Hl Hls].
  destruct ls as [|l' ls].
  - apply split_line, Hl.
  - change (join (l :: l' :: ls) [LF]) with (l ++ LF :: join (l' :: ls) [LF]).
    rewrite (split_line_app _ _ Hl), IH; [reflexivity | discriminate | exact Hls].
Qed.

Lemma split_lines (md : jsstring) : forallb isLine (split md [LF]) = true.
Proof.
  unfold split. induction md as [|c md IH]; [reflexivity|].
  rewrite splitFrom_LF. destruct (c =? LF)%N eqn:E.
  - exact IH.
  - pose proof (splitFrom_nonempty [LF] 0 md) as NE.
    destruct (splitFrom [LF] 0 md) as [|l ls]; [contradiction|].
    cbn [consHead forallb isLine] in *. rewrite E. exact IH.
Qed.

(** ** The scanner *)

Section Scanner.

Context {casing : Casing}.

Lemma scanLine_fence b hs line :
  isFenceLine line = true -> scanLine (b, hs) line = (negb b, hs).
Proof.
  unfold isFenceLine, scanLine. intros ->. reflexivity.
Qed.

Lemma scanLine_inside hs line :
  isFenceLine line = false -> scanLine (true, hs) line = (true, hs).
Proof.
  unfold isFenceLine, scanLine. intros ->. reflexivity.
Qed.

Lemma scanLine_outside hs line :
  isFenceLine line = false ->
  scanLine (false, hs) line = (false, hs ++ headingsOfLine line).
Proof.
  unfold isFenceLine, headingsOfLine, scanLine. intros ->.
  destruct (headingRegex_exec (trim line)) as [[hashes rest]|];
    [|rewrite app_nil_r; reflexivity].
  destruct (negb (length hashes =? 0) && negb (isEmpty rest));
    [reflexivity | rewrite app_nil_r; reflexivity].
Qed.

Lemma scan_inside hs lines :
  forallb (fun l => negb (isFenceLine l)) lines = true ->
  fold_left scanLine lines (true, hs) = (true, hs).
Proof.
  induction lines as [|l lines IH]; [reflexivity|].
  intros H. cbn [forallb] in H. apply andb_prop in H. destruct H as [Hl Hls].
  apply negb_true_iff in Hl.
  cbn [fold_left]. rewrite (scanLine_inside _ _ Hl). exact (IH Hls).
Qed.

(** The state after some lines: the flag follows the parity of the fence
    lines, and the headings are pushed after those already there. *)
Lemma scan_state b hs lines :
  fold_left scanLine lines (b, hs) =
  (xorb b (Nat.odd (countFences lines)),
   hs ++ snd (fold_left scanLine lines (b, []))).
Proof.
  revert b hs. induction lines as [|l lines IH]; intros b hs.
  - cbn. rewrite app_nil_r. destruct b; reflexivity.
  - unfold countFences. cbn [fold_left filter].
    destruct (isFenceLine l) eqn:F.
    + rewrite !(scanLine_fence _ _ _ F). rewrite IH. cbn [length].
      rewrite Nat.odd_succ, <- Nat.negb_odd. fold (countFences lines).
      f_equal. destruct b, (Nat.odd (countFences lines)); reflexivity.
    + fold (countFences lines). destruct b.
      * rewrite !(scanLine_inside _ _ F). apply IH.
      * rewrite !(scanLine_outside _ _ F). cbn [app].
        rewrite IH. rewrite (IH false (headingsOfLine l)).
        cbn [snd]. rewrite app_assoc. reflexivity.
Qed.

Lemma scanLines_app pre post :
  Nat.even (countFences pre) = true ->
  scanLines (pre ++ post) = scanLines pre ++ scanLines post.
Proof.
  intros E. unfold scanLines. rewrite fold_left_app.
  rewrite (scan_state false [] pre). rewrite <- Nat.negb_even, E. simpl.
  rewrite (scan_state false _ post). reflexivity.
Qed.

Lemma countFences_app pre post :
  countFences (pre ++ post) = countFences pre + countFences post.
Proof.
  unfold countFences. rewrite filter_app, length_app. reflexivity.
Qed.

Lemma countFences_none lines :
  forallb (fun l => negb (isFenceLine l)) lines = true -> countFences lines = 0.
Proof.
  unfold countFences. induction lines as [|l lines IH]; [reflexivity|].
  intros H. cbn [forallb] in H. apply andb_prop in H. destruct H as [Hl Hls].
  apply negb_true_iff in Hl. cbn [filter]. rewrite Hl. exact (IH Hls).
Qed.

(** A fenced region adds nothing: after the closing line the state is
    what it was before the opening line. *)
Lemma scan_fenced_region hs opening inner closing :
  isFenceLine opening = true ->
  forallb (fun l => negb (isFenceLine l)) inner = true ->
  isFenceLine closing = true ->
  fold_left scanLine (opening :: inner ++ [closing]) (false, hs) = (false, hs).
Proof.
  intros Ho Hi Hc. cbn [fold_left]. rewrite (scanLine_fence _ _ _ Ho).
  rewrite fold_left_app, (scan_inside _ _ Hi). cbn [fold_left negb].
  exact (scanLine_fence true hs _ Hc).
Qed.

Lemma last_fence lines :
  0 < countFences lines ->
  exists pre fence post,
    lines = pre ++ fence :: post /\ isFenceLine fence = true /\
    forallb (fun l => negb (isFenceLine l)) post = true.
Proof.
  induction lines as [|l lines IH]; [unfold countFences; simpl; lia|].
  intros H. destruct (Nat.eq_dec (countFences lines) 0) as [Z|NZ].
  - exists [], l, lines. split; [reflexivity|].
    unfold countFences in *. cbn [filter] in H.
    destruct (isFenceLine l) eqn:F; [|lia]. split; [reflexivity|].
    clear -Z. induction lines as [|a lines IH]; [reflexivity|].
    cbn [filter forallb] in *.
    destruct (isFenceLine a); cbn [length negb andb] in *; [discriminate | auto].
  - destruct IH as (pre & f & post & -> & Hf & Hp); [lia|].
    exists (l :: pre), f, post. auto.
Qed.

Lemma getHeadings_join (ls : list jsstring) :
  forallb isLine ls = true -> getHeadings (join ls [LF]) = scanLines ls.
Proof.
  intros H. unfold getHeadings. destruct ls as [|l ls].
  - reflexivity.
  - rewrite split_join_lines; [reflexivity | discriminate | exact H].
Qed.

End Scanner.

(** ** What the scanner returns *)

Section ScannerResults.

Context {casing : Casing}.

Lemma headingId_ascii (name : jsstring) :
  forallb isAscii (trim name) = true ->
  headingId name =
  removeNonWord (replaceWhiteSpaceRuns false (map lowerAscii (trim name))).
Proof.
  intros H. unfold headingId. rewrite (toLowerCase_ascii _ H). reflexivity.
Qed.

Lemma headingId_chars (name : jsstring) :
  forallb idChar (headingId name) = true /\
  forallb (fun c => negb (isUpperAscii c)) (headingId name) = true.
Proof.
  unfold headingId, removeNonWord. split.
  - apply filter_self.
  - apply forallb_filter, replaceWhiteSpaceRuns_lower, toLowerCase_lower.
Qed.

Lemma headingId_fix (s : jsstring) :
  forallb idChar s = true ->
  forallb (fun c => negb (isUpperAscii c)) s = true ->
  headingId s = s.
Proof.
  intros Hid Hlow.
  assert (Hsp : forallb (fun c => negb (isWhiteSpace c)) s = true).
  { revert Hid. apply forallb_impl. intros c Hc.
    rewrite (idChar_not_space _ Hc). reflexivity. }
  assert (Hascii : forallb isAscii s = true).
  { revert Hid. apply forallb_impl. exact idChar_ascii. }
  rewrite headingId_ascii; rewrite (trim_none _ Hsp); [|exact Hascii].
  rewrite (map_fix lowerAscii (fun c => negb (isUpperAscii c))); [| |exact Hlow].
  - rewrite (replaceWhiteSpaceRuns_none _ _ Hsp). apply filter_all, Hid.
  - intros c Hc. apply lowerAscii_fix, negb_true_iff, Hc.
Qed.

(** Two words with white space between them: one hyphen joins them. *)
Lemma headingId_two_words (w1 ws w2 : jsstring) :
  let word w := w <> [] /\ forallb idChar w = true
                /\ forallb (fun c => negb (isUpperAscii c)) w = true in
  word w1 -> word w2 ->
  ws <> [] -> forallb isWhiteSpace ws = true -> forallb isAscii ws = true ->
  headingId (w1 ++ ws ++ w2) = w1 ++ [hyphen] ++ w2.
Proof.
  intros word (N1 & I1 & U1) (N2 & I2 & U2) Nws Hws Aws.
  assert (S1 : forallb (fun c => negb (isWhiteSpace c)) w1 = true).
  { revert I1. apply forallb_impl. intros c Hc.
    rewrite (idChar_not_space _ Hc). reflexivity. }
  assert (S2 : forallb (fun c => negb (isWhiteSpace c)) w2 = true).
  { revert I2. apply forallb_impl. intros c Hc.
    rewrite (idChar_not_space _ Hc). reflexivity. }
  assert (U : forallb (fun c => negb (isUpperAscii c)) ws = true).
  { revert Hws. apply forallb_impl. intros c Hc.
    rewrite (whiteSpace_not_upper _ Hc). reflexivity. }
  unfold headingId. rewrite (trim_between _ _ _ N1 S1 N2 S2).
  rewrite toLowerCase_ascii.
  - rewrite (map_fix lowerAscii (fun c => negb (isUpperAscii c))).
    + rewrite (replaceWhiteSpaceRuns_word _ _ S1).
      destruct ws as [|c ws]; [congruence|].
      cbn [forallb] in Hws. apply andb_prop in Hws. destruct Hws as [Hc Hws].
      cbn [app replaceWhiteSpaceRuns]. rewrite Hc.
      rewrite (replaceWhiteSpaceRuns_run _ _ Hws).
      rewrite (replaceWhiteSpaceRuns_none _ _ S2).
      unfold removeNonWord. apply filter_all.
      rewrite forallb_app, I1. cbn [forallb andb]. exact I2.
    + intros c Hc. apply lowerAscii_fix, negb_true_iff, Hc.
    + rewrite !forallb_app, U1, U, U2. reflexivity.
  - rewrite !forallb_app, Aws.
    rewrite (forallb_impl _ _ _ idChar_ascii I1).
    rewrite (forallb_impl _ _ _ idChar_ascii I2). reflexivity.
Qed.

Lemma headingsOfLine_spec (line : jsstring) (h : Heading) :
  In h (headingsOfLine line) ->
  (1 <= level h <= 6) /\ name h <> [] /\ id h = headingId (name h).
Proof.
  unfold headingsOfLine, scanLine.
  destruct (codeFenceRegex_test (trim line)); [intros []|].
  destruct (headingRegex_exec (trim line)) as [[hashes rest]|] eqn:E; [|intros []].
  apply headingRegex_exec_groups in E.
  destruct (negb (length hashes =? 0) && negb (isEmpty rest)); [|intros []].
  cbn [snd app In]. intros [<-|[]]. cbn [level name id]. tauto.
Qed.

Lemma scan_headings lines b hs (h : Heading) :
  In h (snd (fold_left scanLine lines (b, hs))) ->
  In h hs \/ exists line, In line lines /\ In h (headingsOfLine line).
Proof.
  revert b hs. induction lines as [|l lines IH]; intros b hs; [auto|].
  cbn [fold_left]. destruct (isFenceLine l) eqn:F.
  - rewrite (scanLine_fence _ _ _ F). intros H.
    destruct (IH _ _ H) as [?|(x & ? & ?)]; [auto|].
    right. exists x. split; [right|]; assumption.
  - destruct b.
    + rewrite (scanLine_inside _ _ F). intros H.
      destruct (IH _ _ H) as [?|(x & ? & ?)]; [auto|].
      right. exists x. split; [right|]; assumption.
    + rewrite (scanLine_outside _ _ F). intros H.
      destruct (IH _ _ H) as [Hin|(x & ? & ?)].
      * apply in_app_or in Hin. destruct Hin; [auto|].
        right. exists l. split; [left; reflexivity | assumption].
      * right. exists x. split; [right|]; assumption.
Qed.

Lemma getHeadings_spec (md : jsstring) (h : Heading) :
  In h (getHeadings md) ->
  (1 <= level h <= 6) /\ name h <> [] /\ id h = headingId (name h).
Proof.
  intros H. apply scan_headings in H.
  destruct H as [[]|(line & _ & H)]. exact (headingsOfLine_spec _ _ H).
Qed.

Lemma scanLines_no_fence (lines : list jsstring) :
  forallb (fun l => negb (isFenceLine l)) lines = true ->
  scanLines lines = flat_map headingsOfLine lines.
Proof.
  unfold scanLines. induction lines as [|l lines IH]; [reflexivity|].
  intros H. cbn [forallb] in H. apply andb_prop in H. destruct H as [Hl Hls].
  apply negb_true_iff in Hl.
  cbn [fold_left flat_map]. rewrite (scanLine_outside _ _ Hl), scan_state.
  cbn [snd app]. rewrite (IH Hls). reflexivity.
Qed.

(** Seven hashes: the group takes six, no white space follows, and the
    rest of the line, from the seventh hash on, is the name. *)
Lemma headingRegex_exec_seven (t : jsstring) :
  headingRegex_exec (repeat hash 7 ++ t) =
  Some (repeat hash 6, hash :: takeWhile (fun c => negb (isLineTerminator c)) t).
Proof.
  unfold headingRegex_exec.
  set (n := length (takeWhile (N.eqb hash) (repeat hash 7 ++ t))).
  assert (Hn : Nat.min n 6 = 6).
  { assert (7 <= n); [|lia]. subst n. cbn. lia. }
  rewrite Hn. reflexivity.
Qed.

Lemma headingsOfLine_seven (line t : jsstring) :
  trim line = repeat hash 7 ++ t ->
  let name := hash :: takeWhile (fun c => negb (isLineTerminator c)) t in
  headingsOfLine line = [ {| id := headingId name; level := 6; name := name |} ].
Proof.
  intros E. unfold headingsOfLine, scanLine. rewrite E.
  rewrite headingRegex_exec_seven. reflexivity.
Qed.

End ScannerResults.

(** ** The headings of a text *)

(** C5: scanning the text "```\n# not a heading\n```\n# real\n" returns
    exactly one heading, of level 1, name "real" and id "real".  More
    generally a fenced region (an opening fence line met outside a fence,
    lines without a fence line, a closing fence line) can be cut out of a
    text without changing the headings returned: nothing inside it is
    returned. *)
Theorem C5_fenced_headings_skipped (casing : Casing) :
  getHeadings
    (lit "```" ++ [LF] ++ lit "# not a heading" ++ [LF] ++ lit "```" ++ [LF]
     ++ lit "# real" ++ [LF])
  = [ {| id := lit "real"; level := 1; name := lit "real" |} ]
  /\
  forall (pre : list jsstring) (opening : jsstring) (inner : list jsstring)
         (closing : jsstring) (post : list jsstring),
    forallb isLine (pre ++ opening :: inner ++ closing :: post) = true ->
    Nat.even (countFences pre) = true ->
    isFenceLine opening = true ->
    forallb (fun l => negb (isFenceLine l)) inner = true ->
    isFenceLine closing = true ->
    getHeadings (join (pre ++ opening :: inner ++ closing :: post) [LF])
    = getHeadings (join (pre ++ post) [LF]).
Proof.
  split.
  - cbv -[headingId]. rewrite headingId_ascii by reflexivity. reflexivity.
  - intros pre opening inner closing post Hlines Hpre Ho Hi Hc.
    assert (Hlines' : forallb isLine (pre ++ post) = true).
    { rewrite forallb_app in *. apply andb_prop in Hlines.
      destruct Hlines as [H1 H2]. rewrite H1. cbn [forallb] in H2.
      apply andb_prop in H2. destruct H2 as [_ H2].
      rewrite forallb_app in H2. apply andb_prop in H2. destruct H2 as [_ H2].
      cbn [forallb] in H2. apply andb_prop in H2. destruct H2 as [_ H2].
      exact H2. }
    rewrite (getHeadings_join _ Hlines), (getHeadings_join _ Hlines').
    unfold scanLines. rewrite !fold_left_app.
    rewrite (scan_state false [] pre), <- Nat.negb_even, Hpre.
    cbn [negb xorb app].
    change (opening :: inner ++ closing :: post)
      with ((opening :: inner) ++ closing :: post).
    replace ((opening :: inner) ++ closing :: post)
      with ((opening :: inner ++ [closing]) ++ post)
      by (cbn [app]; rewrite <- app_assoc; reflexivity).
    rewrite fold_left_app, (scan_fenced_region _ _ _ _ Ho Hi Hc). reflexivity.
Qed.

Lemma C5_fenced_headings_skipped_witness :
  let pre := [lit "# a"] in
  let inner := [lit "# b"; lit "text"] in
  let post := [lit "# c"] in
  getHeadings (casing := latin1Casing)
    (join (pre ++ lit "```js" :: inner ++ lit "```" :: post) [LF])
  = getHeadings (casing := latin1Casing) (join (pre ++ post) [LF]).
Proof.
  intros pre inner post.
  apply (proj2 (C5_fenced_headings_skipped latin1Casing)); reflexivity.
Defined.

(** C6: the id of every heading returned is derived from its name alone
    ([headingId]: trim, lower-case, each run of white space replaced by one
    hyphen, every code unit that is neither a word character nor a hyphen
    removed).  An id holds word characters and hyphens only and no capital
    of A-Z; two lower-case words with white space between them give the
    two words joined by one hyphen; deriving an id from an id gives the
    same id; "Hello, World!" gives "hello-world"; two headings named "Dup"
    both get the id "dup" and both are returned, in the order of the text:
    outside fences the list is made of what each line adds, line after
    line, nothing merged. *)
Theorem C6_heading_id (casing : Casing) :
  (forall md h, In h (getHeadings md) -> id h = headingId (name h))
  /\ (forall name,
        forallb idChar (headingId name) = true
        /\ forallb (fun c => negb (isUpperAscii c)) (headingId name) = true)
  /\ (forall w1 ws w2,
        let word w := w <> [] /\ forallb idChar w = true
                      /\ forallb (fun c => negb (isUpperAscii c)) w = true in
        word w1 -> word w2 ->
        ws <> [] -> forallb isWhiteSpace ws = true -> forallb isAscii ws = true ->
        headingId (w1 ++ ws ++ w2) = w1 ++ [hyphen] ++ w2)
  /\ (forall name, headingId (headingId name) = headingId name)
  /\ headingId (lit "Hello, World!") = lit "hello-world"
  /\ getHeadings (lit "# Dup" ++ [LF] ++ lit "## Dup")
     = [ {| id := lit "dup"; level := 1; name := lit "Dup" |};
         {| id := lit "dup"; level := 2; name := lit "Dup" |} ]
  /\ (forall lines,
        forallb (fun l => negb (isFenceLine l)) lines = true ->
        scanLines lines = flat_map headingsOfLine lines).
Proof.
  split; [intros md h H; apply (getHeadings_spec _ _ H)|].
  split; [exact headingId_chars|].
  split; [exact headingId_two_words|].
  split.
  { intros name. destruct (headingId_chars name) as [H1 H2].
    apply headingId_fix; assumption. }
  split; [rewrite headingId_ascii by reflexivity; reflexivity|].
  split; [|exact scanLines_no_fence].
  cbv -[headingId]. rewrite !headingId_ascii by reflexivity. reflexivity.
Qed.

Lemma C6_heading_id_witness :
  let h := {| id := lit "a-b"; level := 3; name := lit "A  B" |} in
  id h = headingId (casing := latin1Casing) (name h)
  /\ headingId (casing := latin1Casing) (lit "read" ++ [32; 9; 32]%N ++ lit "me")
     = lit "read-me"
  /\ scanLines (casing := latin1Casing) [lit "# Dup"; lit "text"; lit "# Dup"]
     = flat_map (headingsOfLine (casing := latin1Casing))
         [lit "# Dup"; lit "text"; lit "# Dup"].
Proof.
  intros h.
  destruct (C6_heading_id latin1Casing) as (Hid & _ & Hwords & _ & _ & _ & Hall).
  split; [|split].
  - apply (Hid (lit "intro" ++ [LF] ++ lit "### A  B")). left. reflexivity.
  - apply (Hwords (lit "read") [32; 9; 32]%N (lit "me"));
      try reflexivity; try discriminate;
      (split; [discriminate | split; reflexivity]).
  - apply Hall. reflexivity.
Defined.

(** C8: when the number of fence lines of a text is odd, there is a last
    fence line, and from it on the scanner is inside a fence: after that
    line and after each line that follows it the flag is set and the
    headings are those found before it, so that the result is the headings
    of the lines before the last fence line.  The scanner is a total
    function: there is no error to raise. *)
Theorem C8_unterminated_fence (casing : Casing) (md : jsstring) :
  Nat.odd (countFences (split md [LF])) = true ->
  exists (pre : list jsstring) (fence : jsstring) (post : list jsstring),
    split md [LF] = pre ++ fence :: post
    /\ isFenceLine fence = true
    /\ forallb (fun l => negb (isFenceLine l)) post = true
    /\ (forall k,
          fold_left scanLine (pre ++ fence :: firstn k post) (false, [])
          = (true, scanLines pre))
    /\ getHeadings md = scanLines pre
    /\ getHeadings md = getHeadings (join pre [LF]).
Proof.
  intros Hodd.
  assert (Hpos : 0 < countFences (split md [LF])).
  { destruct (countFences (split md [LF])); [discriminate | lia]. }
  destruct (last_fence _ Hpos) as (pre & fence & post & E & Hf & Hpost).
  exists pre, fence, post.
  assert (Hpre : Nat.odd (countFences pre) = false).
  { rewrite E, countFences_app in Hodd.
    change (fence :: post) with ([fence] ++ post) in Hodd.
    rewrite countFences_app, (countFences_none _ Hpost) in Hodd.
    unfold countFences at 2 in Hodd. cbn [filter] in Hodd. rewrite Hf in Hodd.
    cbn [length] in Hodd. rewrite Nat.add_0_r, Nat.add_1_r, Nat.odd_succ in Hodd.
    rewrite <- Nat.negb_even, Hodd. reflexivity. }
  assert (Hk : forall k,
             fold_left scanLine (pre ++ fence :: firstn k post) (false, [])
             = (true, scanLines pre)).
  { intros k. rewrite fold_left_app, (scan_state false [] pre), Hpre.
    cbn [xorb app fold_left]. rewrite (scanLine_fence _ _ _ Hf).
    apply scan_inside.
    rewrite <- (firstn_skipn k post), forallb_app in Hpost.
    apply andb_prop in Hpost. tauto. }
  assert (Hmd : getHeadings md = scanLines pre).
  { unfold getHeadings. rewrite E. unfold scanLines at 1.
    rewrite <- (firstn_all post) at 1. rewrite Hk. reflexivity. }
  repeat split; try assumption.
  rewrite Hmd. symmetry. apply getHeadings_join.
  pose proof (split_lines md) as L. rewrite E, forallb_app in L.
  apply andb_prop in L. tauto.
Qed.

Lemma C8_unterminated_fence_witness :
  exists (pre : list jsstring) (fence : jsstring) (post : list jsstring),
    split (lit "# a" ++ [LF] ++ lit "```sh" ++ [LF] ++ lit "# b") [LF]
    = pre ++ fence :: post
    /\ isFenceLine fence = true
    /\ forallb (fun l => negb (isFenceLine l)) post = true
    /\ (forall k,
          fold_left (scanLine (casing := latin1Casing))
            (pre ++ fence :: firstn k post) (false, [])
          = (true, scanLines (casing := latin1Casing) pre))
    /\ getHeadings (casing := latin1Casing)
         (lit "# a" ++ [LF] ++ lit "```sh" ++ [LF] ++ lit "# b")
       = scanLines (casing := latin1Casing) pre
    /\ getHeadings (casing := latin1Casing)
         (lit "# a" ++ [LF] ++ lit "```sh" ++ [LF] ++ lit "# b")
       = getHeadings (casing := latin1Casing) (join pre [LF]).
Proof.
  apply (C8_unterminated_fence latin1Casing). reflexivity.
Defined.

(** C9: every heading returned has a level from 1 to 6, a name that is not
    empty, and an id made of word characters and hyphens only.  A line of
    seven hashes or more gives a heading of level 6 whose name starts at
    the seventh hash; "####### x" gives level 6, name "# x", id "-x". *)
Theorem C9_heading_invariants (casing : Casing) :
  (forall md h,
     In h (getHeadings md) ->
     (1 <= level h <= 6) /\ name h <> [] /\ forallb idChar (id h) = true)
  /\ (forall line t,
        trim line = repeat hash 7 ++ t ->
        let name := hash :: takeWhile (fun c => negb (isLineTerminator c)) t in
        headingsOfLine line
        = [ {| id := headingId name; level := 6; name := name |} ])
  /\ getHeadings (lit "####### x")
     = [ {| id := lit "-x"; level := 6; name := lit "# x" |} ].
Proof.
  split.
  { intros md h H. destruct (getHeadings_spec _ _ H) as (Hl & Hn & Hi).
    split; [exact Hl|]. split; [exact Hn|].
    rewrite Hi. apply headingId_chars. }
  split; [exact headingsOfLine_seven|].
  cbv -[headingId]. rewrite headingId_ascii by reflexivity. reflexivity.
Qed.

Lemma C9_heading_invariants_witness :
  let h := {| id := lit "-more"; level := 6; name := lit "## more" |} in
  ((1 <= level h <= 6) /\ name h <> [] /\ forallb idChar (id h) = true)
  /\ headingsOfLine (casing := latin1Casing) (lit "  ######## more  ")
     = [ {| id := headingId (casing := latin1Casing) (lit "## more");
            level := 6; name := lit "## more" |} ].
Proof.
  intros h.
  destruct (C9_heading_invariants latin1Casing) as (Hall & Hseven & _).
  split.
  - apply (Hall (lit "text" ++ [LF] ++ lit "  ######## more  ")).
    left. reflexivity.
  - apply (Hseven (lit "  ######## more  ") (lit "# more")). reflexivity.
Defined.

(** ** The frontmatter fences: [split("---")] and [join("---")] *)

Lemma startsWith_skipn (s p : jsstring) :
  startsWith s p = true -> s = p ++ skipn (length p) s.
Proof.
  revert s. induction p as [|a p IH]; intros s; [reflexivity|].
  destruct s as [|b s]; cbn [startsWith]; [discriminate|].
  intros H. apply andb_prop in H. destruct H as [Hab Hs].
  apply N.eqb_eq in Hab. subst b.
  cbn [length skipn app]. f_equal. exact (IH _ Hs).
Qed.

Lemma join_cons_nil (segs : list jsstring) (sep : jsstring) :
  segs <> [] -> join ([] :: segs) sep = sep ++ join segs sep.
Proof.
  destruct segs; [congruence | reflexivity].
Qed.

Lemma join_consHead (c : codeUnit) (segs : list jsstring) (sep : jsstring) :
  segs <> [] -> join (consHead c segs) sep = c :: join segs sep.
Proof.
  destruct segs as [|seg [|seg' segs]]; [congruence | reflexivity | reflexivity].
Qed.

(** Joining the segments on the separator gives the text back: the
    segments and the occurrences of the separator make up the text. *)
Lemma join_splitFrom (sep : jsstring) (k : nat) (s : jsstring) :
  sep <> [] -> join (splitFrom sep k s) sep = skipn k s.
Proof.
  intros Hsep. revert k. induction s as [|c s IH]; intros k.
  - destruct k; reflexivity.
  - destruct k as [|k]; cbn [splitFrom skipn]; [|apply IH].
    destruct (startsWith (c :: s) sep) eqn:E.
    + rewrite join_cons_nil by apply splitFrom_nonempty.
      rewrite IH. apply startsWith_skipn in E.
      destruct sep as [|a sep]; [congruence|].
      cbn [length skipn] in E. cbn [length Nat.sub]. rewrite Nat.sub_0_r.
      symmetry. exact E.
    + rewrite join_consHead by apply splitFrom_nonempty.
      rewrite IH. reflexivity.
Qed.

Lemma join_split_delimiter (md : jsstring) :
  join (split md delimiter) delimiter = md.
Proof.
  exact (join_splitFrom delimiter 0 md (fun H : delimiter = [] => nil_cons (eq_sym H))).
Qed.

(** With a block found, the text is what precedes the first fence, the
    fence, the block, and then either nothing or the second fence and the
    rest. *)
Lemma split_delimiter_block (md seg0 yaml : jsstring) (rest : list jsstring) :
  split md delimiter = seg0 :: yaml :: rest ->
  md = seg0 ++ delimiter ++ yaml ++
       match rest with
       | [] => []
       | _ :: _ => delimiter ++ join rest delimiter
       end.
Proof.
  intros E. rewrite <- (join_split_delimiter md) at 1. rewrite E.
  destruct rest; cbn [join]; [rewrite app_nil_r|]; reflexivity.
Qed.

(** ** The two entry points, by cases on the split *)

Section EntryPoints.

Context {casing : Casing} {libs : Libraries}.

Lemma process_block {T} (md : jsstring) (schema : option (ZodSchema T))
    (seg0 yaml : jsstring) (rest : list jsstring) :
  split md delimiter = seg0 :: yaml :: rest -> yaml <> [] ->
  Sync.process md schema =
  (html <- marked_parse Sync.highlightOptions (join rest delimiter) ;;
   match schema with
   | Some schema =>
       parsed <- getFrontmatter yaml schema ;;
       ret {| Sync.article := join rest delimiter;
              Sync.headings := getHeadings (join rest delimiter);
              Sync.html := html; Sync.frontmatter := Some parsed |}
   | None =>
       ret {| Sync.article := join rest delimiter;
              Sync.headings := getHeadings (join rest delimiter);
              Sync.html := html; Sync.frontmatter := None |}
   end).
Proof.
  intros E Hy. unfold Sync.process. rewrite E.
  destruct yaml; [congruence | reflexivity].
Qed.

Lemma process_no_block {T} (md : jsstring) (schema : option (ZodSchema T)) :
  truthy (nth_error (split md delimiter) 1) = false ->
  Sync.process md schema =
  (html <- marked_parse Sync.highlightOptions md ;;
   match schema with
   | Some _ => throw (Error noYamlMessage)
   | None =>
       ret {| Sync.article := md; Sync.headings := getHeadings md;
              Sync.html := html; Sync.frontmatter := None |}
   end).
Proof.
  intros H. unfold Sync.process.
  destruct (nth_error (split md delimiter) 1) as [[|c y]|];
    cbn [truthy] in H; try discriminate; reflexivity.
Qed.

Lemma processMarkdown_block {T} (md : jsstring) shiki (schema : ZodSchema T)
    (seg0 yaml : jsstring) (rest : list jsstring) :
  split md delimiter = seg0 :: yaml :: rest -> yaml <> [] ->
  Async.processMarkdown
    {| Async.md := md; Async.shiki := shiki;
       Async.frontmatterSchema := Some schema |} =
  (parsed <- getFrontmatter yaml schema ;;
   html <- marked_parse (Async.highlightOptions shiki) (join rest delimiter) ;;
   ret {| Async.article := join rest delimiter;
          Async.headings := getHeadings (join rest delimiter);
          Async.html := html; Async.frontmatter := Async.Parsed parsed |}).
Proof.
  intros E Hy. unfold Async.processMarkdown. cbn [Async.md Async.shiki Async.frontmatterSchema].
  rewrite E. destruct yaml; [congruence|]. cbn [nth_error skipn].
  unfold bind. destruct (getFrontmatter _ _); reflexivity.
Qed.

Lemma processMarkdown_whole {T} (md : jsstring) shiki
    (schema : option (ZodSchema T)) :
  truthy (nth_error (split md delimiter) 1) = false \/ schema = None ->
  Async.processMarkdown
    {| Async.md := md; Async.shiki := shiki;
       Async.frontmatterSchema := schema |} =
  (html <- marked_parse (Async.highlightOptions shiki) md ;;
   ret {| Async.article := md; Async.headings := getHeadings md;
          Async.html := html; Async.frontmatter := Async.EmptyObject |}).
Proof.
  intros H. unfold Async.processMarkdown. cbn [Async.md Async.shiki Async.frontmatterSchema].
  destruct (nth_error (split md delimiter) 1) as [[|c y]|];
    cbn [truthy] in H; try reflexivity.
  destruct H as [H | ->]; [discriminate | reflexivity].
Qed.


Lemma getFrontmatter_valid {T} (yaml : jsstring) (schema : ZodSchema T)
    (loaded : YamlValue) (data : T) :
  load yaml = inr loaded ->
  safeParse schema loaded = ParseSuccess data ->
  getFrontmatter yaml schema = inr data.
Proof.
  intros Hl Hp. unfold getFrontmatter. rewrite Hl. cbn [bind]. rewrite Hp.
  reflexivity.
Qed.

End EntryPoints.

Section Articles.

Context {casing : Casing} {libs : Libraries}.

(** Whatever the schema, [process] computes the article from the text. *)
Lemma process_article {T} (md : jsstring) (schema : option (ZodSchema T))
    (d : Sync.Data T) :
  Sync.process md schema = inr d ->
  Sync.article d =
  if truthy (nth_error (split md delimiter) 1)
  then join (skipn 2 (split md delimiter)) delimiter
  else md.
Proof.
  unfold Sync.process, bind, ret, throw. intros H.
  destruct (marked_parse _ _) as [e|html]; [discriminate|].
  destruct schema as [schema|].
  - destruct (nth_error (split md delimiter) 1) as [[|c y]|]; try discriminate H.
    destruct (getFrontmatter _ _); [discriminate|].
    injection H as <-. reflexivity.
  - injection H as <-. reflexivity.
Qed.

Lemma process_schema_never_returns_without_block {T} (md : jsstring)
    (schema : ZodSchema T) (d : Sync.Data T) :
  truthy (nth_error (split md delimiter) 1) = false ->
  Sync.process md (Some schema) <> inr d.
Proof.
  intros H. rewrite (process_no_block md (Some schema) H). unfold bind, throw.
  destruct (marked_parse _ _); discriminate.
Qed.

End Articles.

(** ** The article, the frontmatter and the highlighter *)

(** C1, as stated, fails on [processMarkdown]: without a schema the
    article is the whole document, and it holds the text of the block,
    which is split off once a schema is given. *)
Lemma C1_counterexample :
  let doc := lit "---" ++ [LF] ++ lit "title: x" ++ [LF] ++ lit "---" ++ [LF]
             ++ lit "body" in
  let block := [LF] ++ lit "title: x" ++ [LF] in
  nth_error (split doc delimiter) 1 = Some block
  /\ (exists d,
        Async.processMarkdown (casing := latin1Casing) (libs := sampleLibraries)
          {| Async.md := doc; Async.shiki := None;
             Async.frontmatterSchema := @None (ZodSchema jsstring) |} = inr d
        /\ Async.article d = doc
        /\ includes (Async.article d) block = true)
  /\ (exists d,
        Async.processMarkdown (casing := latin1Casing) (libs := sampleLibraries)
          {| Async.md := doc; Async.shiki := None;
             Async.frontmatterSchema := Some acceptingSchema |} = inr d
        /\ Async.article d = [LF] ++ lit "body").
Proof.
  intros doc block. split; [reflexivity|]. split.
  - eexists. split; [vm_compute; reflexivity|]. split; reflexivity.
  - eexists. split; [vm_compute; reflexivity|]. reflexivity.
Qed.

(** C1, amended: in [process] the article depends on the text alone, not on
    the schema: two calls on one text that return give the same article;
    when the second segment is not empty the text is the first segment, a
    fence, the block and, if there is one, a second fence followed by the
    article, which is what follows that fence and is returned as soon as
    the renderer returns.  In [processMarkdown] the block is split off in
    the same way when a schema is given, and without a schema the article
    is the whole text, block included. *)
Theorem C1_article_split (casing : Casing) (libs : Libraries) :
  (forall T1 T2 md (s1 : option (ZodSchema T1)) (s2 : option (ZodSchema T2)) d1 d2,
     Sync.process md s1 = inr d1 -> Sync.process md s2 = inr d2 ->
     Sync.article d1 = Sync.article d2)
  /\ (forall T md seg0 yaml rest,
        split md delimiter = seg0 :: yaml :: rest -> yaml <> [] ->
        md = seg0 ++ delimiter ++ yaml ++
             match rest with
             | [] => []
             | _ :: _ => delimiter ++ join rest delimiter
             end
        /\ (forall html,
              marked_parse Sync.highlightOptions (join rest delimiter) = inr html ->
              Sync.process md (@None (ZodSchema T)) =
              inr {| Sync.article := join rest delimiter;
                     Sync.headings := getHeadings (join rest delimiter);
                     Sync.html := html; Sync.frontmatter := None |})
        /\ (forall shiki (schema : ZodSchema T) d,
              Async.processMarkdown
                {| Async.md := md; Async.shiki := shiki;
                   Async.frontmatterSchema := Some schema |} = inr d ->
              Async.article d = join rest delimiter))
  /\ (forall T md shiki html,
        marked_parse (Async.highlightOptions shiki) md = inr html ->
        Async.processMarkdown
          {| Async.md := md; Async.shiki := shiki;
             Async.frontmatterSchema := @None (ZodSchema T) |} =
        inr {| Async.article := md; Async.headings := getHeadings md;
               Async.html := html; Async.frontmatter := Async.EmptyObject |}).
Proof.
  split; [|split].
  - intros T1 T2 md s1 s2 d1 d2 H1 H2.
    rewrite (process_article _ _ _ H1), (process_article _ _ _ H2). reflexivity.
  - intros T md seg0 yaml rest E Hy.
    split; [exact (split_delimiter_block _ _ _ _ E)|]. split.
    + intros html H. rewrite (process_block md None _ _ _ E Hy), H. reflexivity.
    + intros shiki schema d. rewrite (processMarkdown_block md shiki schema _ _ _ E Hy).
      unfold bind, ret. destruct (getFrontmatter _ _); [discriminate|].
      destruct (marked_parse _ _); [discriminate|].
      intros H. injection H as <-. reflexivity.
  - intros T md shiki html H.
    rewrite (processMarkdown_whole md shiki (@None (ZodSchema T)) (or_intror eq_refl)), H.
    reflexivity.
Qed.

Lemma C1_article_split_witness :
  let md := lit "---" ++ [LF] ++ lit "title: x" ++ [LF] ++ lit "---" ++ [LF]
            ++ lit "body" in
  Sync.process (casing := latin1Casing) (libs := sampleLibraries)
    md (@None (ZodSchema jsstring)) =
  inr {| Sync.article := [LF] ++ lit "body";
         Sync.headings := [];
         Sync.html := lit "<p>" ++ [LF] ++ lit "body</p>";
         Sync.frontmatter := None |}.
Proof.
  intros md.
  destruct (C1_article_split latin1Casing sampleLibraries) as (_ & H & _).
  destruct (H jsstring md [] ([LF] ++ lit "title: x" ++ [LF]) [[LF] ++ lit "body"])
    as (_ & Hp & _); [reflexivity | discriminate |].
  apply (Hp (lit "<p>" ++ [LF] ++ lit "body</p>")). reflexivity.
Defined.

(** C2, as stated, fails on [processMarkdown]: with a schema and a text
    without a block the call returns, the whole text as the article and
    [{}] as the frontmatter. *)
Lemma C2_counterexample :
  truthy (nth_error (split (lit "body") delimiter) 1) = false
  /\ Async.processMarkdown (casing := latin1Casing) (libs := sampleLibraries)
       {| Async.md := lit "body"; Async.shiki := None;
          Async.frontmatterSchema := Some rejectingSchema |}
     = inr {| Async.article := lit "body"; Async.headings := [];
              Async.html := lit "<p>body</p>";
              Async.frontmatter := Async.EmptyObject |}.
Proof.
  split; reflexivity.
Qed.

(** C2, amended: when the text has no second segment, or an empty one,
    [process] with a schema never returns a result, and throws the
    "No yaml found" error, whose message is not that of a validation
    failure, as soon as the renderer, which runs first, returns;
    [processMarkdown] with a schema then returns the whole text as the
    article and the empty object as the frontmatter. *)
Theorem C2_missing_yaml (casing : Casing) (libs : Libraries) (T : Type)
    (md : jsstring) (schema : ZodSchema T) :
  truthy (nth_error (split md delimiter) 1) = false ->
  (forall d, Sync.process md (Some schema) <> inr d)
  /\ (forall html,
        marked_parse Sync.highlightOptions md = inr html ->
        Sync.process md (Some schema) = inl (Error noYamlMessage))
  /\ (forall issue, noYamlMessage <> invalidFrontmatterMessage issue)
  /\ (forall shiki html,
        marked_parse (Async.highlightOptions shiki) md = inr html ->
        Async.processMarkdown
          {| Async.md := md; Async.shiki := shiki;
             Async.frontmatterSchema := Some schema |} =
        inr {| Async.article := md; Async.headings := getHeadings md;
               Async.html := html; Async.frontmatter := Async.EmptyObject |}).
Proof.
  intros H. split; [|split; [|split]].
  - intros d. apply process_schema_never_returns_without_block, H.
  - intros html Hr. rewrite (process_no_block md (Some schema) H), Hr. reflexivity.
  - intros issue. discriminate.
  - intros shiki html Hr.
    rewrite (processMarkdown_whole md shiki (Some schema) (or_introl H)), Hr.
    reflexivity.
Qed.

Lemma C2_missing_yaml_witness :
  Sync.process (casing := latin1Casing) (libs := sampleLibraries)
    (lit "------body") (Some acceptingSchema)
  = inl (Error noYamlMessage).
Proof.
  apply (proj1 (proj2 (C2_missing_yaml latin1Casing sampleLibraries jsstring
                         (lit "------body") acceptingSchema eq_refl))
           (lit "<p>------body</p>")).
  reflexivity.
Defined.

(** C3, on the code: a text with one fence and something after it has two
    segments; the second one is taken for the block and the article is
    empty, in [process] whatever the schema, in [processMarkdown] when a
    schema is given. *)
Theorem C3_single_delimiter (casing : Casing) (libs : Libraries) (T : Type)
    (md before after : jsstring) :
  split md delimiter = [before; after] -> after <> [] ->
  (forall html,
     marked_parse Sync.highlightOptions [] = inr html ->
     Sync.process md (@None (ZodSchema T)) =
     inr {| Sync.article := []; Sync.headings := [];
            Sync.html := html; Sync.frontmatter := None |})
  /\ (forall shiki (schema : ZodSchema T) d,
        Async.processMarkdown
          {| Async.md := md; Async.shiki := shiki;
             Async.frontmatterSchema := Some schema |} = inr d ->
        Async.article d = []).
Proof.
  intros E Ha. split.
  - intros html Hr.
    rewrite (process_block md None before after [] E Ha).
    cbn [join]. rewrite Hr. reflexivity.
  - intros shiki schema d.
    rewrite (processMarkdown_block md shiki schema before after [] E Ha).
    unfold bind, ret. destruct (getFrontmatter _ _); [discriminate|].
    destruct (marked_parse _ _); [discriminate|].
    intros H. injection H as <-. reflexivity.
Qed.

Lemma C3_single_delimiter_witness :
  Sync.process (casing := latin1Casing) (libs := sampleLibraries)
    (lit "# Title" ++ [LF] ++ lit "---" ++ [LF] ++ lit "text")
    (@None (ZodSchema jsstring))
  = inr {| Sync.article := []; Sync.headings := [];
           Sync.html := lit "<p></p>"; Sync.frontmatter := None |}.
Proof.
  destruct (C3_single_delimiter latin1Casing sampleLibraries jsstring
              (lit "# Title" ++ [LF] ++ lit "---" ++ [LF] ++ lit "text")
              (lit "# Title" ++ [LF]) ([LF] ++ lit "text"))
    as [H _]; [reflexivity | discriminate |].
  apply H. reflexivity.
Defined.

(** C4, as stated, fails.  In [process], "svelte", which highlight.js does
    not have, is highlighted as "html", which is not the plain rendering.
    In [processMarkdown] a language that shiki does not have goes to shiki
    as it is and the callback throws what shiki throws, where [process]
    falls back to "plaintext". *)
Lemma C4_counterexample :
  (hljs_getLanguage (Libraries := sampleLibraries) (lit "svelte") = false
   /\ Sync.highlightCode (libs := sampleLibraries) (lit "<b/>") (lit "svelte")
      = hljs_highlight (Libraries := sampleLibraries) (lit "<b/>") (lit "html")
   /\ Sync.highlightCode (libs := sampleLibraries) (lit "<b/>") (lit "svelte")
      <> hljs_highlight (Libraries := sampleLibraries) (lit "<b/>") (lit "plaintext"))
  /\ (hljs_getLanguage (Libraries := sampleLibraries) (lit "klingon") = false
      /\ Sync.highlightCode (libs := sampleLibraries) (lit "Qapla") (lit "klingon")
         = hljs_highlight (Libraries := sampleLibraries) (lit "Qapla") (lit "plaintext")
      /\ codeToHtml (Libraries := sampleLibraries) (lit "Qapla")
           {| lang := lit "klingon"; theme := lit "github-dark-default";
              extra := None |}
         = inl (Thrown (lit "Language `klingon` not found"))
      /\ Async.highlightCode (libs := sampleLibraries) None (lit "Qapla") (lit "klingon")
         = inl (Thrown (lit "Language `klingon` not found"))).
Proof.
  split.
  - split; [reflexivity|]. split; [reflexivity|]. vm_compute. discriminate.
  - repeat split; reflexivity.
Qed.

(** C4, amended: in [process] a block whose language highlight.js does
    not know is highlighted as "plaintext", unless the language is
    "svelte", which is highlighted as "html"; in [processMarkdown] the
    language of the block goes to shiki as it is, with the default theme,
    when the caller's options set no other: there is no fallback. *)
Theorem C4_unknown_language (libs : Libraries) (code declared : jsstring) :
  hljs_getLanguage declared = false ->
  (declared <> lit "svelte" ->
   Sync.highlightCode code declared = hljs_highlight code (lit "plaintext"))
  /\ (declared = lit "svelte" ->
      Sync.highlightCode code declared = hljs_highlight code (lit "html"))
  /\ Async.highlightCode None code declared
     = codeToHtml code
         {| lang := declared; theme := lit "github-dark-default"; extra := None |}
  /\ (forall p,
        lang_opt p = None ->
        exists options,
          Async.highlightCode (Some p) code declared = codeToHtml code options
          /\ lang options = declared).
Proof.
  intros Hunknown. unfold Sync.highlightCode, Sync.highlightLanguage.
  rewrite Hunknown. split; [|split; [|split]].
  - intros Hne. destruct (Js.eqb declared (lit "svelte")) eqn:E; [|reflexivity].
    apply eqb_eq in E. contradiction.
  - intros ->. reflexivity.
  - reflexivity.
  - intros p Hp. eexists. split; [reflexivity|].
    cbn [Object_assign lang]. rewrite Hp. reflexivity.
Qed.

Lemma C4_unknown_language_witness :
  Sync.highlightCode (libs := sampleLibraries) (lit "x = 1") (lit "cobol")
  = hljs_highlight (Libraries := sampleLibraries) (lit "x = 1") (lit "plaintext").
Proof.
  apply (proj1 (C4_unknown_language sampleLibraries (lit "x = 1") (lit "cobol")
                  eq_refl)).
  discriminate.
Defined.




(** C10: on "intro---meta---body" the segments are "intro", "meta" and
    "body": the block is "meta", the article returned is "body", and
    "intro", which stands before the first fence, is in neither.  This is
    what [process] returns without a schema once the renderer returns,
    and what [processMarkdown] returns with a schema that accepts the
    block. *)
Theorem C10_text_before_fence_dropped (casing : Casing) (libs : Libraries) :
  let md := lit "intro---meta---body" in
  split md delimiter = [lit "intro"; lit "meta"; lit "body"]
  /\ includes (lit "meta") (lit "intro") = false
  /\ includes (lit "body") (lit "intro") = false
  /\ (forall T html,
        marked_parse Sync.highlightOptions (lit "body") = inr html ->
        Sync.process md (@None (ZodSchema T)) =
        inr {| Sync.article := lit "body"; Sync.headings := [];
               Sync.html := html; Sync.frontmatter := None |})
  /\ (forall T (schema : ZodSchema T) shiki loaded data html,
        load (lit "meta") = inr loaded ->
        safeParse schema loaded = ParseSuccess data ->
        marked_parse (Async.highlightOptions shiki) (lit "body") = inr html ->
        Async.processMarkdown
          {| Async.md := md; Async.shiki := shiki;
             Async.frontmatterSchema := Some schema |} =
        inr {| Async.article := lit "body"; Async.headings := [];
               Async.html := html; Async.frontmatter := Async.Parsed data |}).
Proof.
  intros md.
  assert (E : split md delimiter = [lit "intro"; lit "meta"; lit "body"])
    by reflexivity.
  assert (Hy : lit "meta" <> []) by discriminate.
  split; [exact E|]. split; [reflexivity|]. split; [reflexivity|]. split.
  - intros T html Hr.
    rewrite (process_block md None _ _ _ E Hy).
    change (join [lit "body"] delimiter) with (lit "body").
    rewrite Hr. reflexivity.
  - intros T schema shiki loaded data html Hl Hp Hr.
    rewrite (processMarkdown_block md shiki schema _ _ _ E Hy).
    rewrite (getFrontmatter_valid _ schema loaded data Hl Hp).
    change (join [lit "body"] delimiter) with (lit "body").
    cbn [bind]. rewrite Hr. reflexivity.
Qed.

Lemma C10_text_before_fence_dropped_witness :
  Async.processMarkdown (casing := latin1Casing) (libs := sampleLibraries)
    {| Async.md := lit "intro---meta---body"; Async.shiki := None;
       Async.frontmatterSchema := Some acceptingSchema |}
  = inr {| Async.article := lit "body"; Async.headings := [];
           Async.html := lit "<p>body</p>";
           Async.frontmatter := Async.Parsed (lit "meta") |}.
Proof.
  destruct (C10_text_before_fence_dropped latin1Casing sampleLibraries)
    as (_ & _ & _ & _ & H).
  apply (H jsstring acceptingSchema None (lit "meta") (lit "meta")
           (lit "<p>body</p>")); reflexivity.
Defined.

(** * Further properties *)

(** ** What the entry points return *)

Lemma join_skipn_suffix (segs : list jsstring) (sep : jsstring) (n : nat) :
  exists prefix, join segs sep = prefix ++ join (skipn n segs) sep.
Proof.
  revert segs. induction n as [|n IH]; intros segs.
  - exists []. reflexivity.
  - destruct segs as [|seg segs]; [exists []; reflexivity|].
    destruct (IH segs) as (p & Hp). cbn [skipn].
    destruct segs as [|seg' segs].
    + exists seg. destruct n; cbn; rewrite app_nil_r; reflexivity.
    + change (join (seg :: seg' :: segs) sep)
        with (seg ++ sep ++ join (seg' :: segs) sep).
      rewrite Hp. exists (seg ++ sep ++ p). rewrite <- !app_assoc. reflexivity.
Qed.

Section Returns.

Context {casing : Casing} {libs : Libraries}.

Lemma getFrontmatter_inv {T} (yaml : jsstring) (schema : ZodSchema T) (data : T) :
  getFrontmatter yaml schema = inr data ->
  exists loaded, load yaml = inr loaded /\ safeParse schema loaded = ParseSuccess data.
Proof.
  unfold getFrontmatter, bind, ret, throw.
  destruct (load yaml) as [e|loaded]; [discriminate|].
  destruct (safeParse schema loaded) as [data'|issues] eqn:E.
  - intros H. injection H as <-. exists loaded. auto.
  - destruct (stringifyFirst issues); discriminate.
Qed.

(** The text [process] takes for the article. *)
Lemma process_inv {T} (md : jsstring) (schema : option (ZodSchema T))
    (d : Sync.Data T) :
  Sync.process md schema = inr d ->
  Sync.headings d = getHeadings (Sync.article d)
  /\ marked_parse Sync.highlightOptions (Sync.article d) = inr (Sync.html d)
  /\ match schema with
     | None => Sync.frontmatter d = None
     | Some schema =>
         exists yaml data,
           nth_error (split md delimiter) 1 = Some yaml /\ yaml <> []
           /\ getFrontmatter yaml schema = inr data
           /\ Sync.frontmatter d = Some data
     end.
Proof.
  unfold Sync.process, bind, ret, throw. intros H.
  destruct (marked_parse _ _) as [e|html] eqn:R; [discriminate|].
  destruct schema as [schema|].
  - destruct (nth_error (split md delimiter) 1) as [[|c y]|]; try discriminate H.
    destruct (getFrontmatter _ _) as [e|data] eqn:G; [discriminate|].
    injection H as <-. cbn. repeat split; try assumption.
    exists (c :: y), data. repeat split; [discriminate | assumption].
  - injection H as <-. cbn. auto.
Qed.

Lemma processMarkdown_inv {T} (options : Async.Options T) (d : Async.MdData T) :
  Async.processMarkdown options = inr d ->
  Async.headings d = getHeadings (Async.article d)
  /\ marked_parse (Async.highlightOptions (Async.shiki options)) (Async.article d)
     = inr (Async.html d)
  /\ ((Async.frontmatter d = Async.EmptyObject
       /\ Async.article d = Async.md options
       /\ (truthy (nth_error (split (Async.md options) delimiter) 1) = false
           \/ Async.frontmatterSchema options = None))
      \/ (exists yaml schema data,
            nth_error (split (Async.md options) delimiter) 1 = Some yaml
            /\ yaml <> []
            /\ Async.frontmatterSchema options = Some schema
            /\ getFrontmatter yaml schema = inr data
            /\ Async.frontmatter d = Async.Parsed data
            /\ Async.article d
               = join (skipn 2 (split (Async.md options) delimiter)) delimiter)).
Proof.
  unfold Async.processMarkdown, bind, ret, throw.
  destruct options as [md shiki schema]. cbn [Async.md Async.shiki Async.frontmatterSchema].
  destruct (nth_error (split md delimiter) 1) as [[|c y]|];
    [| destruct schema as [schema|] |].
  - destruct (marked_parse _ _) as [e|html] eqn:R; [discriminate|].
    intros H. injection H as <-. cbn. repeat split; auto.
  - destruct (getFrontmatter _ _) as [e|data] eqn:G; [discriminate|].
    destruct (marked_parse _ _) as [e|html] eqn:R; [discriminate|].
    intros H. injection H as <-. cbn. repeat split; auto.
    right. exists (c :: y), schema, data. repeat split; auto. discriminate.
  - destruct (marked_parse _ _) as [e|html] eqn:R; [discriminate|].
    intros H. injection H as <-. cbn. repeat split; auto.
  - destruct (marked_parse _ _) as [e|html] eqn:R; [discriminate|].
    intros H. injection H as <-. cbn. repeat split; auto.
Qed.

End Returns.

(** X1: the article returned is always an end of the text: the text is some
    prefix followed by the article.  In [process], when the second segment
    is not empty the prefix holds a fence and the block, at least four code
    units, and otherwise the article is the text; [processMarkdown] behaves
    in the same way. *)
Theorem X1_article_is_suffix (casing : Casing) (libs : Libraries) (T : Type)
    (md : jsstring) :
  (forall (schema : option (ZodSchema T)) d,
     Sync.process md schema = inr d ->
     (exists prefix, md = prefix ++ Sync.article d)
     /\ (truthy (nth_error (split md delimiter) 1) = true ->
         length (Sync.article d) + 4 <= length md)
     /\ (truthy (nth_error (split md delimiter) 1) = false ->
         Sync.article d = md))
  /\ (forall shiki (schema : option (ZodSchema T)) d,
        Async.processMarkdown
          {| Async.md := md; Async.shiki := shiki;
             Async.frontmatterSchema := schema |} = inr d ->
        (exists prefix, md = prefix ++ Async.article d)
        /\ (Async.article d = md \/ length (Async.article d) + 4 <= length md)).
Proof.
  assert (Suffix : exists prefix,
             md = prefix ++ join (skipn 2 (split md delimiter)) delimiter).
  { destruct (join_skipn_suffix (split md delimiter) delimiter 2) as (p & Hp).
    rewrite join_split_delimiter in Hp. exists p. exact Hp. }
  assert (Shorter : truthy (nth_error (split md delimiter) 1) = true ->
            length (join (skipn 2 (split md delimiter)) delimiter) + 4
            <= length md).
  { intros Ht.
    destruct (split md delimiter) as [|seg0 [|yaml rest]] eqn:E;
      try discriminate Ht.
    destruct yaml as [|c y]; [discriminate Ht|].
    pose proof (split_delimiter_block md seg0 (c :: y) rest E) as Hmd.
    apply (f_equal (@length codeUnit)) in Hmd. rewrite Hmd.
    cbn [skipn]. rewrite !length_app. cbn [length delimiter].
    destruct rest; [cbn; lia|]. rewrite !length_app. cbn [length delimiter]. lia. }
  split.
  - intros schema d H. rewrite (process_article _ _ _ H).
    destruct (truthy (nth_error (split md delimiter) 1)).
    + split; [exact Suffix|]. split; [auto | discriminate].
    + split; [exists []; reflexivity|]. split; [discriminate | reflexivity].
  - intros shiki schema d H. apply processMarkdown_inv in H.
    destruct H as (_ & _ & [(_ & Ha & _) | (yaml & s & data & Hy & Hne & _ & _ & _ & Ha)]);
      cbn [Async.md] in *; rewrite Ha.
    + split; [exists []; reflexivity | left; reflexivity].
    + split; [exact Suffix|]. right. apply Shorter. rewrite Hy.
      destruct yaml; [congruence | reflexivity].
Qed.

Lemma X1_article_is_suffix_witness :
  exists prefix,
    lit "---title: x---# A---B" = prefix ++ lit "# A---B"
    /\ length (lit "# A---B") + 4 <= length (lit "---title: x---# A---B").
Proof.
  destruct (X1_article_is_suffix latin1Casing sampleLibraries jsstring
              (lit "---title: x---# A---B")) as (H & _).
  destruct (H None
              {| Sync.article := lit "# A---B";
                 Sync.headings :=
                   [ {| id := lit "a---b"; level := 1; name := lit "A---B" |} ];
                 Sync.html := lit "<p># A---B</p>";
                 Sync.frontmatter := None |} eq_refl)
    as ((prefix & Hp) & Hs & _).
  exists prefix. split; [exact Hp | exact (Hs eq_refl)].
Defined.

(** X2: in a result, the headings are those of the article and the html is
    what the renderer made of the article: both are computed from the
    article returned, never from the block or from the text before it. *)
Theorem X2_result_is_consistent (casing : Casing) (libs : Libraries) (T : Type) :
  (forall md (schema : option (ZodSchema T)) d,
     Sync.process md schema = inr d ->
     Sync.headings d = getHeadings (Sync.article d)
     /\ marked_parse Sync.highlightOptions (Sync.article d) = inr (Sync.html d))
  /\ (forall (options : Async.Options T) d,
        Async.processMarkdown options = inr d ->
        Async.headings d = getHeadings (Async.article d)
        /\ marked_parse (Async.highlightOptions (Async.shiki options))
             (Async.article d) = inr (Async.html d)).
Proof.
  split.
  - intros md schema d H. apply process_inv in H. tauto.
  - intros options d H. apply processMarkdown_inv in H. tauto.
Qed.

Lemma X2_result_is_consistent_witness :
  getHeadings (casing := latin1Casing) (lit "# Body")
  = [ {| id := lit "body"; level := 1; name := lit "Body" |} ]
  /\ marked_parse (Libraries := sampleLibraries) Sync.highlightOptions (lit "# Body")
     = inr (lit "<p># Body</p>").
Proof.
  exact (proj1 (X2_result_is_consistent latin1Casing sampleLibraries jsstring)
           (lit "---# Meta---# Body") (Some acceptingSchema)
           {| Sync.article := lit "# Body";
              Sync.headings :=
                [ {| id := lit "body"; level := 1; name := lit "Body" |} ];
              Sync.html := lit "<p># Body</p>";
              Sync.frontmatter := Some (lit "# Meta") |} eq_refl).
Defined.

(** X3: a frontmatter that is returned has been validated.  When
    [process] returns with a schema, the second segment of the text is not
    empty, the loader returned on it, the schema accepted what it read, and
    the frontmatter of the result is the data the schema gave.  The same
    holds of [processMarkdown] when a schema is given and the second
    segment is not empty; when it is missing or empty, the frontmatter is
    the literal empty object and the article the whole text. *)
Theorem X3_frontmatter_is_validated (casing : Casing) (libs : Libraries) (T : Type)
    (md : jsstring) (schema : ZodSchema T) :
  (forall d,
     Sync.process md (Some schema) = inr d ->
     exists yaml loaded data,
       nth_error (split md delimiter) 1 = Some yaml /\ yaml <> []
       /\ load yaml = inr loaded
       /\ safeParse schema loaded = ParseSuccess data
       /\ Sync.frontmatter d = Some data)
  /\ (forall shiki d yaml,
        nth_error (split md delimiter) 1 = Some yaml -> yaml <> [] ->
        Async.processMarkdown
          {| Async.md := md; Async.shiki := shiki;
             Async.frontmatterSchema := Some schema |} = inr d ->
        exists loaded data,
          load yaml = inr loaded
          /\ safeParse schema loaded = ParseSuccess data
          /\ Async.frontmatter d = Async.Parsed data)
  /\ (forall shiki d,
        truthy (nth_error (split md delimiter) 1) = false ->
        Async.processMarkdown
          {| Async.md := md; Async.shiki := shiki;
             Async.frontmatterSchema := Some schema |} = inr d ->
        Async.frontmatter d = Async.EmptyObject /\ Async.article d = md).
Proof.
  split; [|split].
  - intros d H. apply process_inv in H.
    destruct H as (_ & _ & yaml & data & Hy & Hne & G & F).
    apply getFrontmatter_inv in G. destruct G as (loaded & Hl & Hp).
    exists yaml, loaded, data. repeat split; assumption.
  - intros shiki d yaml Hy Hne H. apply processMarkdown_inv in H.
    cbn [Async.md Async.frontmatterSchema] in H.
    destruct H as (_ & _ & [(_ & _ & [C|C]) | (yaml' & s & data & Hy' & _ & Hs & G & F & _)]).
    + rewrite Hy in C. destruct yaml; [congruence | discriminate C].
    + discriminate C.
    + rewrite Hy in Hy'. injection Hy' as <-. injection Hs as <-.
      apply getFrontmatter_inv in G. destruct G as (loaded & Hl & Hp).
      exists loaded, data. repeat split; assumption.
  - intros shiki d Hf H. apply processMarkdown_inv in H.
    cbn [Async.md Async.frontmatterSchema] in H.
    destruct H as (_ & _ & [(F & A & _) | (yaml & s & data & Hy & Hne & _)]).
    + split; assumption.
    + rewrite Hy in Hf. destruct yaml; [congruence | discriminate Hf].
Qed.

Lemma X3_frontmatter_is_validated_witness :
  exists yaml loaded data,
    nth_error (split (lit "--- draft ---# Body") delimiter) 1 = Some yaml
    /\ yaml <> []
    /\ load (Libraries := sampleLibraries) yaml = inr loaded
    /\ safeParse acceptingSchema loaded = ParseSuccess data
    /\ Some (lit "draft") = Some data.
Proof.
  exact (proj1 (X3_frontmatter_is_validated latin1Casing sampleLibraries jsstring
                  (lit "--- draft ---# Body") acceptingSchema)
           {| Sync.article := lit "# Body";
              Sync.headings :=
                [ {| id := lit "body"; level := 1; name := lit "Body" |} ];
              Sync.html := lit "<p># Body</p>";
              Sync.frontmatter := Some (lit "draft") |} eq_refl).
Defined.

(** X5: which exception wins.  [process] renders before it looks at the
    frontmatter: when the renderer throws on the article, the call throws
    that exception, whatever the schema and the block are.
    [processMarkdown] validates first: when a schema is given and the
    block is rejected or cannot be loaded, the call throws that exception
    and the renderer plays no part. *)
Theorem X5_exception_order (casing : Casing) (libs : Libraries) (T : Type)
    (md : jsstring) (e : Exception LibError) :
  (forall (schema : option (ZodSchema T)),
     marked_parse Sync.highlightOptions
       (if truthy (nth_error (split md delimiter) 1)
        then join (skipn 2 (split md delimiter)) delimiter
        else md) = inl e ->
     Sync.process md schema = inl e)
  /\ (forall shiki (schema : ZodSchema T) yaml,
        nth_error (split md delimiter) 1 = Some yaml -> yaml <> [] ->
        getFrontmatter yaml schema = inl e ->
        Async.processMarkdown
          {| Async.md := md; Async.shiki := shiki;
             Async.frontmatterSchema := Some schema |} = inl e).
Proof.
  split.
  - intros schema H. unfold Sync.process. rewrite H. reflexivity.
  - intros shiki schema yaml Hy Hne G. unfold Async.processMarkdown.
    cbn [Async.md Async.shiki Async.frontmatterSchema]. rewrite Hy.
    destruct yaml as [|c y]; [congruence|]. rewrite G. reflexivity.
Qed.

Lemma X5_exception_order_witness :
  Async.processMarkdown (casing := latin1Casing) (libs := sampleLibraries)
    {| Async.md := lit "---x---```cobol" ++ [LF] ++ lit "```";
       Async.shiki := None;
       Async.frontmatterSchema := Some rejectingSchema |}
  = inl (Error (invalidFrontmatterMessage (lit "title: Required"))).
Proof.
  apply (proj2 (X5_exception_order latin1Casing sampleLibraries jsstring
                  (lit "---x---```cobol" ++ [LF] ++ lit "```")
                  (Error (invalidFrontmatterMessage (lit "title: Required"))))
           None rejectingSchema (lit "x")).
  - reflexivity.
  - discriminate.
  - reflexivity.
Defined.

(** X6: without a schema neither the loader nor a validator plays a part:
    the call returns exactly when the renderer returns on the article, and
    what it throws is what the renderer throws.  For [processMarkdown] the
    article is then the whole text. *)
Theorem X6_no_schema (casing : Casing) (libs : Libraries) (T : Type)
    (md : jsstring) :
  let article :=
    if truthy (nth_error (split md delimiter) 1)
    then join (skipn 2 (split md delimiter)) delimiter
    else md in
  (forall e,
     Sync.process md (@None (ZodSchema T)) = inl e <->
     marked_parse Sync.highlightOptions article = inl e)
  /\ (forall html,
        marked_parse Sync.highlightOptions article = inr html <->
        Sync.process md (@None (ZodSchema T))
        = inr {| Sync.article := article; Sync.headings := getHeadings article;
                 Sync.html := html; Sync.frontmatter := None |})
  /\ (forall shiki e,
        Async.processMarkdown
          {| Async.md := md; Async.shiki := shiki;
             Async.frontmatterSchema := @None (ZodSchema T) |} = inl e <->
        marked_parse (Async.highlightOptions shiki) md = inl e).
Proof.
  intros article. split; [|split].
  - intros e. unfold Sync.process, bind, ret. fold article.
    destruct (marked_parse Sync.highlightOptions article); split;
      intros H; try discriminate; congruence.
  - intros html. unfold Sync.process, bind, ret. fold article.
    destruct (marked_parse Sync.highlightOptions article); split;
      intros H; try discriminate; congruence.
  - intros shiki e.
    rewrite (processMarkdown_whole md shiki (@None (ZodSchema T)) (or_intror eq_refl)).
    unfold bind, ret.
    destruct (marked_parse (Async.highlightOptions shiki) md); split;
      intros H; try discriminate; congruence.
Qed.

Lemma X6_no_schema_witness :
  Sync.process (casing := latin1Casing) (libs := sampleLibraries)
    (lit "--- x: [ ---# Body") (@None (ZodSchema jsstring))
  = inr {| Sync.article := lit "# Body";
           Sync.headings :=
             [ {| id := lit "body"; level := 1; name := lit "Body" |} ];
           Sync.html := lit "<p># Body</p>"; Sync.frontmatter := None |}.
Proof.
  apply (proj1 (proj1 (proj2 (X6_no_schema latin1Casing sampleLibraries jsstring
                                (lit "--- x: [ ---# Body")))
                  (lit "<p># Body</p>"))).
  reflexivity.
Defined.

(** X7: the two revisions agree when a schema is given: if [process] and
    [processMarkdown] both return on a text, they return the same article,
    the same headings and the same frontmatter (the html may differ, the
    highlighters being different). *)
Theorem X7_revisions_agree (casing : Casing) (libs : Libraries) (T : Type)
    (md : jsstring) (schema : ZodSchema T) shiki
    (d1 : Sync.Data T) (d2 : Async.MdData T) :
  Sync.process md (Some schema) = inr d1 ->
  Async.processMarkdown
    {| Async.md := md; Async.shiki := shiki;
       Async.frontmatterSchema := Some schema |} = inr d2 ->
  Sync.article d1 = Async.article d2
  /\ Sync.headings d1 = Async.headings d2
  /\ exists data,
       Sync.frontmatter d1 = Some data /\ Async.frontmatter d2 = Async.Parsed data.
Proof.
  intros H1 H2.
  pose proof (process_article _ _ _ H1) as A1.
  apply process_inv in H1. apply processMarkdown_inv in H2.
  cbn [Async.md Async.shiki Async.frontmatterSchema] in H2.
  destruct H1 as (Hh1 & _ & yaml & data & Hy & Hne & G & F1).
  rewrite Hy in A1.
  destruct yaml as [|c y]; [congruence|]. cbn [truthy] in A1.
  destruct H2 as (Hh2 & _ & [(_ & _ & [C|C]) | (yaml' & s & data' & Hy' & _ & Hs & G' & F2 & A2)]).
  - rewrite Hy in C. discriminate.
  - discriminate.
  - rewrite Hy in Hy'. injection Hy' as <-. injection Hs as <-.
    rewrite G in G'. injection G' as <-.
    assert (A : Sync.article d1 = Async.article d2) by (rewrite A1, A2; reflexivity).
    split; [exact A|]. split; [rewrite Hh1, Hh2, A; reflexivity|].
    exists data. auto.
Qed.

Lemma X7_revisions_agree_witness :
  lit "# Body" = lit "# Body"
  /\ [ {| id := lit "body"; level := 1; name := lit "Body" |} ]
     = [ {| id := lit "body"; level := 1; name := lit "Body" |} ]
  /\ exists data,
       Some (lit "x") = Some data /\ Async.Parsed (lit "x") = Async.Parsed data.
Proof.
  exact (X7_revisions_agree latin1Casing sampleLibraries jsstring
           (lit "---x---# Body") acceptingSchema None
           {| Sync.article := lit "# Body";
              Sync.headings :=
                [ {| id := lit "body"; level := 1; name := lit "Body" |} ];
              Sync.html := lit "<p># Body</p>";
              Sync.frontmatter := Some (lit "x") |}
           {| Async.article := lit "# Body";
              Async.headings :=
                [ {| id := lit "body"; level := 1; name := lit "Body" |} ];
              Async.html := lit "<p># Body</p>";
              Async.frontmatter := Async.Parsed (lit "x") |}
           eq_refl eq_refl).
Defined.

(** ** The segments of a text *)

Lemma startsWith_nil (s : jsstring) : startsWith s [] = true.
Proof.
  destruct s; reflexivity.
Qed.

Lemma startsWith_app (a b p : jsstring) :
  startsWith a p = true -> startsWith (a ++ b) p = true.
Proof.
  revert a. induction p as [|x p IH]; intros a; [intros _; apply startsWith_nil|].
  destruct a as [|y a]; cbn [startsWith app]; [discriminate|].
  intros H. apply andb_prop in H. destruct H as [H1 H2].
  rewrite H1. exact (IH _ H2).
Qed.

Lemma startsWith_self (p b : jsstring) : startsWith (p ++ b) p = true.
Proof.
  induction p as [|x p IH]; [apply startsWith_nil|].
  cbn [startsWith app]. rewrite N.eqb_refl. exact IH.
Qed.

Lemma includes_unfold (s p : jsstring) :
  includes s p =
  startsWith s p || match s with [] => false | _ :: s' => includes s' p end.
Proof.
  destruct s; reflexivity.
Qed.

Lemma includes_between (a p b : jsstring) : includes (a ++ p ++ b) p = true.
Proof.
  induction a as [|x a IH]; rewrite includes_unfold.
  - cbn [app]. rewrite startsWith_self. reflexivity.
  - cbn [app]. rewrite IH. apply orb_true_r.
Qed.

Lemma splitFrom_head_prefix (sep : jsstring) (s seg : jsstring)
    (segs : list jsstring) :
  sep <> [] -> splitFrom sep 0 s = seg :: segs -> exists rest, s = seg ++ rest.
Proof.
  intros Hsep E. pose proof (join_splitFrom sep 0 s Hsep) as J.
  rewrite E in J. cbn [skipn] in J. rewrite <- J.
  destruct segs as [|seg' segs].
  - exists []. cbn [join]. rewrite app_nil_r. reflexivity.
  - exists (sep ++ join (seg' :: segs) sep). reflexivity.
Qed.

(** No segment holds the separator. *)
Lemma splitFrom_segments (sep : jsstring) (k : nat) (s : jsstring) :
  sep <> [] ->
  Forall (fun seg => includes seg sep = false) (splitFrom sep k s).
Proof.
  intros Hsep.
  assert (Hnil : includes [] sep = false) by (destruct sep; [congruence | reflexivity]).
  revert k. induction s as [|c s IH]; intros k.
  - constructor; [exact Hnil | constructor].
  - destruct k as [|k]; cbn [splitFrom]; [|apply IH].
    destruct (startsWith (c :: s) sep) eqn:E.
    + constructor; [exact Hnil | apply IH].
    + pose proof (IH 0) as F.
      destruct (splitFrom sep 0 s) as [|seg segs] eqn:S.
      * exfalso. exact (splitFrom_nonempty sep 0 s S).
      * cbn [consHead]. inversion F as [|? ? Hseg Hsegs]; subst.
        constructor; [|exact Hsegs].
        rewrite includes_unfold, Hseg, orb_false_r.
        destruct (splitFrom_head_prefix sep s seg segs Hsep S) as (rest & ->).
        destruct (startsWith (c :: seg) sep) eqn:E'; [|reflexivity].
        pose proof (startsWith_app (c :: seg) rest sep E') as E''.
        cbn [app] in E''. congruence.
Qed.

(** X8: no segment of the text holds the fence: neither the text before
    the first fence nor the block handed to the loader contains "---".
    The article can: with more than three segments it holds a fence, kept
    as it was written. *)
Theorem X8_block_holds_no_fence (md : jsstring) :
  (forall seg, In seg (split md delimiter) -> includes seg delimiter = false)
  /\ (forall yaml,
        nth_error (split md delimiter) 1 = Some yaml ->
        includes yaml delimiter = false)
  /\ (forall seg0 yaml r1 r2 rest,
        split md delimiter = seg0 :: yaml :: r1 :: r2 :: rest ->
        includes (join (skipn 2 (split md delimiter)) delimiter) delimiter = true).
Proof.
  assert (F : Forall (fun seg => includes seg delimiter = false)
                (split md delimiter)).
  { apply (splitFrom_segments delimiter 0 md). discriminate. }
  rewrite Forall_forall in F. split; [exact F|]. split.
  - intros yaml H. apply F. exact (nth_error_In _ _ H).
  - intros seg0 yaml r1 r2 rest E. rewrite E. cbn [skipn].
    change (join (r1 :: r2 :: rest) delimiter)
      with (r1 ++ delimiter ++ join (r2 :: rest) delimiter).
    apply includes_between.
Qed.

Lemma X8_block_holds_no_fence_witness :
  includes (lit "a: 1") delimiter = false
  /\ includes (join (skipn 2 (split (lit "---a: 1---one---two") delimiter)) delimiter)
       delimiter = true.
Proof.
  destruct (X8_block_holds_no_fence (lit "---a: 1---one---two")) as (_ & H1 & H2).
  split.
  - apply H1. reflexivity.
  - apply (H2 [] (lit "a: 1") (lit "one") (lit "two") []). reflexivity.
Defined.

(** ** The highlight callbacks *)

(** X9: the callback of [process] asks highlight.js for the language of
    the block, for "html" or for "plaintext", and for nothing else; a
    language highlight.js knows is asked for as it is; and when
    highlight.js knows "plaintext" and "html", as its common bundle does,
    the language asked for is always one it knows. *)
Theorem X9_highlight_language_known (libs : Libraries) :
  (forall declared,
     Sync.highlightLanguage declared = declared
     \/ Sync.highlightLanguage declared = lit "html"
     \/ Sync.highlightLanguage declared = lit "plaintext")
  /\ (forall declared,
        hljs_getLanguage declared = true ->
        Sync.highlightLanguage declared = declared)
  /\ (hljs_getLanguage (lit "plaintext") = true ->
      hljs_getLanguage (lit "html") = true ->
      forall declared,
        hljs_getLanguage (Sync.highlightLanguage declared) = true).
Proof.
  unfold Sync.highlightLanguage. split; [|split].
  - intros declared. destruct (hljs_getLanguage declared); [auto|].
    destruct (Js.eqb declared (lit "svelte")); auto.
  - intros declared ->. reflexivity.
  - intros Hp Hh declared. destruct (hljs_getLanguage declared) eqn:E; [exact E|].
    destruct (Js.eqb declared (lit "svelte")); assumption.
Qed.

Lemma X9_highlight_language_known_witness :
  hljs_getLanguage (Libraries := sampleLibraries)
    (Sync.highlightLanguage (libs := sampleLibraries) (lit "cobol")) = true.
Proof.
  apply (proj2 (proj2 (X9_highlight_language_known sampleLibraries)));
    reflexivity.
Defined.

(** X10: in [processMarkdown] a language set in the caller's [shiki]
    options replaces the language of every block: the language written on
    the fence plays no part any more.  The theme is "github-dark-default"
    unless the options set one. *)
Theorem X10_shiki_options_override (libs : Libraries)
    (p : PartialCodeToHastOptions ShikiExtra) (code : jsstring) :
  (forall chosen,
     lang_opt p = Some chosen ->
     forall declared declared',
       Async.highlightCode (Some p) code declared
       = Async.highlightCode (Some p) code declared'
       /\ exists options,
            Async.highlightCode (Some p) code declared = codeToHtml code options
            /\ lang options = chosen)
  /\ (theme_opt p = None ->
      forall declared,
        exists options,
          Async.highlightCode (Some p) code declared = codeToHtml code options
          /\ theme options = lit "github-dark-default")
  /\ (forall chosen,
        theme_opt p = Some chosen ->
        forall declared,
          exists options,
            Async.highlightCode (Some p) code declared = codeToHtml code options
            /\ theme options = chosen).
Proof.
  unfold Async.highlightCode, Object_assign. split; [|split].
  - intros chosen Hl declared declared'. rewrite Hl. split; [reflexivity|].
    eexists. split; reflexivity.
  - intros Ht declared. rewrite Ht. eexists. split; reflexivity.
  - intros chosen Ht declared. rewrite Ht. eexists. split; reflexivity.
Qed.

Lemma X10_shiki_options_override_witness :
  Async.highlightCode (libs := sampleLibraries)
    (Some {| lang_opt := Some (lit "html"); theme_opt := None; extra_opt := None |})
    (lit "x") (lit "cobol")
  = Async.highlightCode (libs := sampleLibraries)
      (Some {| lang_opt := Some (lit "html"); theme_opt := None; extra_opt := None |})
      (lit "x") (lit "javascript").
Proof.
  apply (proj1 (X10_shiki_options_override sampleLibraries
                  {| lang_opt := Some (lit "html"); theme_opt := None;
                     extra_opt := None |} (lit "x"))
           (lit "html") eq_refl (lit "cobol") (lit "javascript")).
Defined.

(** ** White space around a line *)

Lemma takeWhile_forallb p (s : jsstring) : forallb p (takeWhile p s) = true.
Proof.
  induction s as [|c s IH]; [reflexivity|]. cbn [takeWhile].
  destruct (p c) eqn:E; [|reflexivity]. cbn [forallb]. rewrite E. exact IH.
Qed.

Lemma takeWhile_app p (a b : jsstring) :
  forallb p a = true -> takeWhile p (a ++ b) = a ++ takeWhile p b.
Proof.
  induction a as [|c a IH]; [reflexivity|].
  intros H. cbn [forallb] in H. apply andb_prop in H. destruct H as [Hc Ha].
  cbn [app takeWhile]. rewrite Hc, (IH Ha). reflexivity.
Qed.

Lemma takeWhile_fix p (s : jsstring) : forallb p s = true -> takeWhile p s = s.
Proof.
  intros H. rewrite <- (app_nil_r s) at 1.
  rewrite (takeWhile_app p s [] H). apply app_nil_r.
Qed.

Lemma skipn_length_app (a b : jsstring) : skipn (length a) (a ++ b) = b.
Proof.
  induction a as [|c a IH]; [reflexivity | exact IH].
Qed.

Lemma firstn_length_app (a b : jsstring) : firstn (length a) (a ++ b) = a.
Proof.
  induction a as [|c a IH]; [reflexivity|]. cbn [length firstn app]. rewrite IH.
  reflexivity.
Qed.

Lemma skipn_takeWhile p (s : jsstring) :
  skipn (length (takeWhile p s)) s = dropWhile p s.
Proof.
  induction s as [|c s IH]; [reflexivity|]. cbn [takeWhile dropWhile].
  destruct (p c); [exact IH | reflexivity].
Qed.

Lemma dropWhile_stops p (s : jsstring) :
  dropWhile p s = [] \/ exists c t, dropWhile p s = c :: t /\ p c = false.
Proof.
  induction s as [|c s IH]; [left; reflexivity|]. cbn [dropWhile].
  destruct (p c) eqn:E; [exact IH|]. right. exists c, s. auto.
Qed.

Lemma dropWhile_nil p (s : jsstring) : dropWhile p s = [] -> forallb p s = true.
Proof.
  induction s as [|c s IH]; [reflexivity|]. cbn [dropWhile forallb].
  destruct (p c); [exact IH | discriminate].
Qed.

Lemma dropWhile_all p (s : jsstring) : forallb p s = true -> dropWhile p s = [].
Proof.
  induction s as [|c s IH]; [reflexivity|]. cbn [dropWhile forallb].
  intros H. apply andb_prop in H. destruct H as [Hc Hs]. rewrite Hc. exact (IH Hs).
Qed.

Lemma dropWhile_idem p (s : jsstring) :
  dropWhile p (dropWhile p s) = dropWhile p s.
Proof.
  destruct (dropWhile_stops p s) as [E|(c & t & E & Hc)]; rewrite E;
    [reflexivity | exact (dropWhile_head p c t Hc)].
Qed.

Lemma dropWhile_app p (a b : jsstring) :
  dropWhile p (a ++ b) =
  if isEmpty (dropWhile p a) then dropWhile p b else dropWhile p a ++ b.
Proof.
  induction a as [|c a IH]; [reflexivity|]. cbn [app dropWhile].
  destruct (p c); [exact IH | reflexivity].
Qed.

Lemma dropWhile_length p (s : jsstring) : length (dropWhile p s) <= length s.
Proof.
  induction s as [|c s IH]; [cbn; lia|]. cbn [dropWhile].
  destruct (p c); cbn [length]; lia.
Qed.

Lemma dropWhile_same_length p (s : jsstring) :
  length (dropWhile p s) = length s -> dropWhile p s = s.
Proof.
  destruct s as [|c s]; [reflexivity|]. cbn [dropWhile].
  destruct (p c); [|reflexivity].
  pose proof (dropWhile_length p s). cbn [length]. lia.
Qed.

(** White space before and after a line does not count. *)
Lemma trim_padded (a l b : jsstring) :
  forallb isWhiteSpace a = true -> forallb isWhiteSpace b = true ->
  trim (a ++ l ++ b) = trim l.
Proof.
  intros Ha Hb. unfold trim, trimStart, trimEnd.
  rewrite (dropWhile_app isWhiteSpace a), (dropWhile_all _ _ Ha). cbn [isEmpty].
  rewrite (dropWhile_app isWhiteSpace l).
  destruct (dropWhile isWhiteSpace l) as [|c u] eqn:E; cbn [isEmpty].
  - rewrite (dropWhile_all _ _ Hb). reflexivity.
  - rewrite rev_app_distr, (dropWhile_app isWhiteSpace (rev b)).
    rewrite dropWhile_all by (rewrite forallb_rev; exact Hb). reflexivity.
Qed.

(** What [trim] gives does not end in white space. *)
Lemma trim_end (l : jsstring) :
  dropWhile isWhiteSpace (rev (trim l)) = rev (trim l).
Proof.
  unfold trim, trimEnd. rewrite rev_involutive. apply dropWhile_idem.
Qed.

(** A text that [trim] leaves as it is starts and ends with a code unit
    that is not white space, when it is not empty. *)
Lemma trim_fix_ends (s : jsstring) :
  trim s = s -> s <> [] ->
  (exists c t, s = c :: t /\ isWhiteSpace c = false)
  /\ (exists t c, s = t ++ [c] /\ isWhiteSpace c = false).
Proof.
  intros E Hne. split.
  - assert (D : dropWhile isWhiteSpace s = s).
    { apply dropWhile_same_length.
      pose proof (dropWhile_length isWhiteSpace s) as L1.
      pose proof (dropWhile_length isWhiteSpace (rev (dropWhile isWhiteSpace s))) as L2.
      rewrite length_rev in L2.
      assert (L3 : length (trim s) = length s) by (rewrite E; reflexivity).
      unfold trim, trimStart, trimEnd in L3. rewrite length_rev in L3. lia. }
    destruct (dropWhile_stops isWhiteSpace s) as [Z|(c & t & Z & Hc)];
      rewrite D in Z; [contradiction|]. exists c, t. auto.
  - pose proof (trim_end s) as D. rewrite E in D.
    destruct (dropWhile_stops isWhiteSpace (rev s)) as [Z|(c & t & Z & Hc)];
      rewrite D in Z.
    + apply (f_equal (@rev codeUnit)) in Z. rewrite rev_involutive in Z.
      contradiction.
    + exists (rev t), c. split; [|exact Hc].
      apply (f_equal (@rev codeUnit)) in Z. rewrite rev_involutive in Z.
      exact Z.
Qed.

Lemma descending_cons (hi lo : nat) :
  lo <= hi -> exists rest, descending hi lo = hi :: rest.
Proof.
  intros H. unfold descending.
  replace (S hi - lo) with (S (hi - lo)) by lia.
  rewrite seq_S, rev_app_distr. cbn [rev app].
  replace (lo + (hi - lo)) with hi by lia. eexists. reflexivity.
Qed.

(** ** Heading lines *)

Lemma forallb_repeat (p : codeUnit -> bool) (c : codeUnit) (k : nat) :
  p c = true -> forallb p (repeat c k) = true.
Proof.
  intros H. induction k as [|k IH]; [reflexivity|].
  cbn [repeat forallb]. rewrite H. exact IH.
Qed.

Lemma repeat_hash_forallb (k : nat) : forallb (N.eqb hash) (repeat hash k) = true.
Proof.
  apply forallb_repeat. reflexivity.
Qed.

Lemma skipn_repeat (k : nat) (x : jsstring) : skipn k (repeat hash k ++ x) = x.
Proof.
  induction k as [|k IH]; [reflexivity | exact IH].
Qed.

Lemma firstn_repeat (k : nat) (x : jsstring) :
  firstn k (repeat hash k ++ x) = repeat hash k.
Proof.
  induction k as [|k IH]; [reflexivity|]. cbn [repeat app firstn]. rewrite IH.
  reflexivity.
Qed.

Lemma whiteSpace_not_hash c : isWhiteSpace c = true -> (hash =? c)%N = false.
Proof.
  intros W. apply N.eqb_neq. intros <-. discriminate W.
Qed.

Lemma not_lineTerminator_hashes (m : nat) :
  forallb (fun c => negb (isLineTerminator c)) (repeat hash m) = true.
Proof.
  apply forallb_repeat. reflexivity.
Qed.

(** From one to six hashes, white space or none, and a text that does not
    start with white space (nor with a hash when no white space comes
    before it) and holds no line terminator: the hashes and the text are
    the two groups. *)
Lemma headingRegex_exec_plain (k : nat) (gap text : jsstring) (c : codeUnit)
    (t : jsstring) :
  1 <= k <= 6 ->
  forallb isWhiteSpace gap = true ->
  text = c :: t -> isWhiteSpace c = false ->
  (gap = [] -> c <> hash) ->
  forallb (fun c => negb (isLineTerminator c)) text = true ->
  headingRegex_exec (repeat hash k ++ gap ++ text) = Some (repeat hash k, text).
Proof.
  intros Hk Hgap Etext Hc Hhash Hlt. unfold headingRegex_exec. cbv zeta.
  assert (Hcount : takeWhile (N.eqb hash) (repeat hash k ++ gap ++ text)
                   = repeat hash k).
  { rewrite (takeWhile_app _ _ _ (repeat_hash_forallb k)).
    rewrite <- (app_nil_r (repeat hash k)) at 2. f_equal.
    destruct gap as [|g gap].
    - subst text. cbn [app takeWhile].
      destruct (hash =? c)%N eqn:E; [|reflexivity].
      apply N.eqb_eq in E. symmetry in E. destruct (Hhash eq_refl E).
    - cbn [forallb] in Hgap. apply andb_prop in Hgap. destruct Hgap as [Hg _].
      cbn [app takeWhile]. rewrite (whiteSpace_not_hash _ Hg). reflexivity. }
  rewrite Hcount, repeat_length.
  replace (Nat.min k 6) with k by lia.
  destruct (descending_cons k 1 (proj1 Hk)) as (rest & ->). cbn [firstSome].
  rewrite skipn_repeat, firstn_repeat.
  assert (Hspaces : takeWhile isWhiteSpace (gap ++ text) = gap).
  { rewrite (takeWhile_app _ _ _ Hgap). subst text. cbn [takeWhile].
    rewrite Hc. apply app_nil_r. }
  rewrite Hspaces.
  destruct (descending_cons (length gap) 0 (Nat.le_0_l _)) as (rest' & ->).
  cbn [firstSome]. rewrite skipn_length_app, (takeWhile_fix _ _ Hlt).
  subst text. reflexivity.
Qed.

Section HeadingLines.

Context {casing : Casing}.

Lemma headingId_hashes (m : nat) : headingId (repeat hash m) = [].
Proof.
  assert (Hsp : forallb (fun c => negb (isWhiteSpace c)) (repeat hash m) = true)
    by (apply forallb_repeat; reflexivity).
  assert (Hascii : forallb isAscii (repeat hash m) = true)
    by (apply forallb_repeat; reflexivity).
  rewrite headingId_ascii; rewrite (trim_none _ Hsp); [|exact Hascii].
  rewrite (map_fix lowerAscii (fun c => negb (isUpperAscii c))).
  - rewrite (replaceWhiteSpaceRuns_none _ _ Hsp).
    clear. induction m as [|m IH]; [reflexivity | exact IH].
  - intros c Hc. apply lowerAscii_fix, negb_true_iff, Hc.
  - apply forallb_repeat. reflexivity.
Qed.

Lemma headingsOfLine_padded (a l b : jsstring) :
  forallb isWhiteSpace a = true -> forallb isWhiteSpace b = true ->
  headingsOfLine (a ++ l ++ b) = headingsOfLine l.
Proof.
  intros Ha Hb. unfold headingsOfLine, scanLine.
  rewrite (trim_padded a l b Ha Hb). reflexivity.
Qed.

Lemma headingsOfLine_match (line hashes name : jsstring) :
  codeFenceRegex_test (trim line) = false ->
  headingRegex_exec (trim line) = Some (hashes, name) ->
  headingsOfLine line
  = [ {| id := headingId name; level := length hashes; name := name |} ].
Proof.
  intros F E. unfold headingsOfLine, scanLine. rewrite F, E.
  destruct (headingRegex_exec_groups _ _ _ E) as (Hl & Hn).
  destruct (length hashes) eqn:L; [lia|].
  destruct name; [congruence | reflexivity].
Qed.

Lemma codeFenceRegex_test_hash (s : jsstring) :
  codeFenceRegex_test (hash :: s) = false.
Proof.
  reflexivity.
Qed.

End HeadingLines.

(** X11: an ordinary heading line.  A line made of white space or none,
    from one to six hashes, white space or none, a text and white space or
    none, where the text is trimmed, not empty, holds no line terminator
    and, when it follows the hashes at once, does not start with a hash,
    gives outside a fence exactly one heading: its level is the number of
    hashes, its name the text and its id the id derived from the text. *)
Theorem X11_plain_heading_line (casing : Casing) (k : nat)
    (indent gap text trailing : jsstring) :
  1 <= k <= 6 ->
  forallb isWhiteSpace indent = true ->
  forallb isWhiteSpace gap = true ->
  forallb isWhiteSpace trailing = true ->
  trim text = text -> text <> [] ->
  forallb (fun c => negb (isLineTerminator c)) text = true ->
  (gap = [] -> startsWith text [hash] = false) ->
  headingsOfLine (indent ++ (repeat hash k ++ gap ++ text) ++ trailing)
  = [ {| id := headingId text; level := k; name := text |} ].
Proof.
  intros Hk Hi Hg Ht Etrim Hne Hlt Hhash.
  destruct (trim_fix_ends text Etrim Hne) as ((c & t & Etext & Hc) & (t' & c' & Elast & Hc')).
  rewrite (headingsOfLine_padded indent _ trailing Hi Ht).
  assert (Hline : trim (repeat hash k ++ gap ++ text) = repeat hash k ++ gap ++ text).
  { rewrite Elast.
    replace (repeat hash k ++ gap ++ t' ++ [c'])
      with (repeat hash k ++ (gap ++ t') ++ [c'])
      by (rewrite <- !app_assoc; reflexivity).
    apply trim_between.
    - destruct k; [lia | discriminate].
    - apply forallb_repeat. reflexivity.
    - discriminate.
    - cbn [forallb]. rewrite Hc'. reflexivity. }
  assert (E : headingRegex_exec (repeat hash k ++ gap ++ text)
              = Some (repeat hash k, text)).
  { apply (headingRegex_exec_plain k gap text c t Hk Hg Etext Hc); [|exact Hlt].
    intros Z Ec. specialize (Hhash Z). subst text c.
    cbn [startsWith] in Hhash. rewrite N.eqb_refl in Hhash.
    destruct t; discriminate Hhash. }
  rewrite (headingsOfLine_match _ (repeat hash k) text).
  - rewrite repeat_length. reflexivity.
  - rewrite Hline. destruct k; [lia | reflexivity].
  - rewrite Hline. exact E.
Qed.

Lemma X11_plain_heading_line_witness :
  headingsOfLine (casing := latin1Casing)
    (lit "  " ++ (repeat hash 2 ++ [32; 9]%N ++ lit "Getting #started") ++ [13]%N)
  = [ {| id := headingId (casing := latin1Casing) (lit "Getting #started");
         level := 2; name := lit "Getting #started" |} ].
Proof.
  apply (X11_plain_heading_line latin1Casing 2 (lit "  ") [32; 9]%N
           (lit "Getting #started") [13]%N);
    try reflexivity; try discriminate; lia.
Defined.

(** X12: a line of hashes and nothing else but white space around them.
    One hash gives no heading: the name would be empty.  From two to six
    hashes the last one is taken for the name: the heading has one level
    less than there are hashes, the name "#" and the empty id.  From seven
    hashes on the level is 6 and the name the hashes after the sixth. *)
Theorem X12_hashes_only_line (casing : Casing) (n : nat)
    (indent trailing : jsstring) :
  forallb isWhiteSpace indent = true ->
  forallb isWhiteSpace trailing = true ->
  headingsOfLine (indent ++ repeat hash n ++ trailing)
  = if n <=? 1 then []
    else if n <=? 6
         then [ {| id := []; level := n - 1; name := [hash] |} ]
         else [ {| id := []; level := 6; name := repeat hash (n - 6) |} ].
Proof.
  intros Hi Ht. rewrite (headingsOfLine_padded indent _ trailing Hi Ht).
  assert (Htrim : trim (repeat hash n) = repeat hash n).
  { apply trim_none, forallb_repeat. reflexivity. }
  destruct (Nat.leb_spec n 6) as [Hle|Hgt].
  - assert (Hid : headingId [35%N] = []) by exact (headingId_hashes 1).
    do 7 (destruct n as [|n]; [cbv -[headingId]; rewrite ?Hid; reflexivity|]).
    lia.
  - replace (n <=? 1) with false by (symmetry; apply Nat.leb_gt; lia).
    replace (repeat hash n) with (repeat hash 7 ++ repeat hash (n - 7)) in *
      by (rewrite <- repeat_app; f_equal; lia).
    rewrite (headingsOfLine_match _ (repeat hash 6)
               (hash :: takeWhile (fun c => negb (isLineTerminator c))
                          (repeat hash (n - 7)))).
    + rewrite (takeWhile_fix _ _ (not_lineTerminator_hashes (n - 7))).
      change (hash :: repeat hash (n - 7)) with (repeat hash (S (n - 7))).
      replace (S (n - 7)) with (n - 6) by lia.
      rewrite headingId_hashes. reflexivity.
    + rewrite Htrim. reflexivity.
    + rewrite Htrim. apply headingRegex_exec_seven.
Qed.

Lemma X12_hashes_only_line_witness :
  headingsOfLine (casing := latin1Casing) (lit " " ++ repeat hash 3 ++ [13]%N)
  = [ {| id := []; level := 2; name := [hash] |} ].
Proof.
  apply (X12_hashes_only_line latin1Casing 3 (lit " ") [13]%N); reflexivity.
Defined.

(** ** Names, lines and texts *)

Lemma lineTerminator_is_space c :
  isLineTerminator c = true -> isWhiteSpace c = true.
Proof.
  unfold isLineTerminator, isWhiteSpace, within. to_prop. lia.
Qed.

(** On a line that does not end in white space the second group starts
    with a code unit that is not white space. *)
Lemma headingRegex_exec_name (line hashes name : jsstring) :
  dropWhile isWhiteSpace (rev line) = rev line ->
  headingRegex_exec line = Some (hashes, name) ->
  (exists c t, name = c :: t /\ isWhiteSpace c = false)
  /\ forallb (fun c => negb (isLineTerminator c)) name = true.
Proof.
  intros Hend H. unfold headingRegex_exec in H. cbv zeta in H.
  apply firstSome_Some in H. destruct H as (h & _ & H).
  set (rest := skipn h line) in *.
  destruct (descending_cons (length (takeWhile isWhiteSpace rest)) 0
              (Nat.le_0_l _)) as (tl & E).
  rewrite E in H. cbn [firstSome] in H.
  rewrite skipn_takeWhile in H.
  destruct (dropWhile_stops isWhiteSpace rest) as [Z|(c & t & Z & Hc)].
  - (* nothing but white space after the hashes *)
    rewrite Z in H. cbn [takeWhile isEmpty] in H.
    apply firstSome_Some in H. destruct H as (w & _ & H).
    destruct (takeWhile _ (skipn w rest)) as [|x xs] eqn:N;
      cbn [isEmpty] in H; [discriminate|].
    exfalso.
    assert (Hrest : rest <> []).
    { intros R. rewrite R, skipn_nil in N. discriminate N. }
    apply dropWhile_nil in Z.
    assert (Hline : line = firstn h line ++ rest)
      by (symmetry; apply firstn_skipn).
    rewrite Hline, rev_app_distr in Hend.
    destruct (rev rest) as [|y ys] eqn:R.
    + apply (f_equal (@rev codeUnit)) in R. rewrite rev_involutive in R.
      contradiction.
    + rewrite <- forallb_rev, R in Z. cbn [forallb] in Z.
      apply andb_prop in Z. destruct Z as [Hy _].
      apply (f_equal (@length codeUnit)) in Hend.
      cbn [app dropWhile] in Hend. rewrite Hy in Hend.
      pose proof (dropWhile_length isWhiteSpace (ys ++ rev (firstn h line))).
      cbn [length] in Hend. lia.
  - rewrite Z in H. cbn [takeWhile] in H.
    assert (Hlt : isLineTerminator c = false).
    { destruct (isLineTerminator c) eqn:L; [|reflexivity].
      apply lineTerminator_is_space in L. congruence. }
    rewrite Hlt in H. cbn [negb isEmpty] in H. injection H as _ <-.
    split; [exists c; eexists; split; [reflexivity | exact Hc]|].
    cbn [forallb]. rewrite Hlt. apply takeWhile_forallb.
Qed.

Lemma takeWhile_dropWhile p (s : jsstring) : takeWhile p s ++ dropWhile p s = s.
Proof.
  induction s as [|c s IH]; [reflexivity|]. cbn [takeWhile dropWhile].
  destruct (p c); [cbn [app]; rewrite IH|]; reflexivity.
Qed.

(** The second group is a piece of the line. *)
Lemma headingRegex_exec_piece (line hashes name : jsstring) :
  headingRegex_exec line = Some (hashes, name) ->
  exists before after, line = before ++ name ++ after.
Proof.
  intros H. unfold headingRegex_exec in H. cbv zeta in H.
  apply firstSome_Some in H. destruct H as (h & _ & H).
  apply firstSome_Some in H. destruct H as (w & _ & H).
  destruct (takeWhile _ (skipn w (skipn h line))) as [|x xs] eqn:N;
    cbn [isEmpty] in H; [discriminate|].
  injection H as _ <-.
  exists (firstn h line ++ firstn w (skipn h line)),
         (dropWhile (fun c => negb (isLineTerminator c)) (skipn w (skipn h line))).
  rewrite <- N, takeWhile_dropWhile, <- app_assoc, !firstn_skipn. reflexivity.
Qed.

Lemma split_app_LF (a b : jsstring) :
  split (a ++ LF :: b) [LF] = split a [LF] ++ split b [LF].
Proof.
  unfold split. induction a as [|c a IH].
  - cbn [app]. rewrite splitFrom_LF, N.eqb_refl. reflexivity.
  - cbn [app]. rewrite !splitFrom_LF, IH. destruct (c =? LF)%N; [reflexivity|].
    pose proof (splitFrom_nonempty [LF] 0 a) as NE.
    destruct (splitFrom [LF] 0 a); [contradiction | reflexivity].
Qed.

Section Texts.

Context {casing : Casing}.

Lemma headingsOfLine_inv (line : jsstring) (h : Heading) :
  In h (headingsOfLine line) ->
  exists hashes,
    headingRegex_exec (trim line) = Some (hashes, name h)
    /\ level h = length hashes.
Proof.
  unfold headingsOfLine, scanLine.
  destruct (codeFenceRegex_test (trim line)); [intros []|].
  destruct (headingRegex_exec (trim line)) as [[hashes rest]|] eqn:E; [|intros []].
  destruct (negb (length hashes =? 0) && negb (isEmpty rest)); [|intros []].
  cbn [snd app In]. intros [<-|[]]. exists hashes. auto.
Qed.

Lemma headingsOfLine_length (line : jsstring) : length (headingsOfLine line) <= 1.
Proof.
  unfold headingsOfLine, scanLine.
  destruct (codeFenceRegex_test (trim line)); [cbn; lia|].
  destruct (headingRegex_exec (trim line)) as [[hashes rest]|]; [|cbn; lia].
  destruct (negb (length hashes =? 0) && negb (isEmpty rest)); cbn; lia.
Qed.

Lemma scanLine_trim st (l l' : jsstring) :
  trim l = trim l' -> scanLine st l = scanLine st l'.
Proof.
  intros E. unfold scanLine. destruct st as [b hs]. rewrite E. reflexivity.
Qed.

End Texts.

(** X13: the name of a heading is a piece of a line of the text, as it is
    written there; it starts with a code unit that is not white space and
    holds no line terminator (a lone carriage return inside a line ends
    the name). *)
Theorem X13_heading_name (casing : Casing) (md : jsstring) (h : Heading) :
  In h (getHeadings md) ->
  (exists c t, name h = c :: t /\ isWhiteSpace c = false)
  /\ forallb (fun c => negb (isLineTerminator c)) (name h) = true
  /\ exists line before after,
       In line (split md [LF]) /\ trim line = before ++ name h ++ after.
Proof.
  intros H. apply scan_headings in H. destruct H as [[]|(line & Hin & H)].
  apply headingsOfLine_inv in H. destruct H as (hashes & E & _).
  destruct (headingRegex_exec_name _ _ _ (trim_end line) E) as (Hstart & Hlt).
  split; [exact Hstart|]. split; [exact Hlt|].
  destruct (headingRegex_exec_piece _ _ _ E) as (before & after & Hp).
  exists line, before, after. auto.
Qed.

Lemma X13_heading_name_witness :
  let h := {| id := lit "one"; level := 2; name := lit "One " |} in
  (exists c t, name h = c :: t /\ isWhiteSpace c = false)
  /\ forallb (fun c => negb (isLineTerminator c)) (name h) = true
  /\ exists line before after,
       In line (split (lit "text" ++ [LF] ++ lit "##   One " ++ [13]%N ++ lit "two")
                  [LF])
       /\ trim line = before ++ name h ++ after.
Proof.
  intros h.
  apply (X13_heading_name latin1Casing
           (lit "text" ++ [LF] ++ lit "##   One " ++ [13]%N ++ lit "two") h).
  left. reflexivity.
Defined.

(** X14: white space at the ends of the lines plays no part: two texts
    whose lines differ by white space before and after them only (an
    indentation, a carriage return before the line feed) have the same
    headings. *)
Theorem X14_line_padding_ignored (casing : Casing) (ls ls' : list jsstring) :
  Forall2
    (fun l l' =>
       exists a b,
         forallb isWhiteSpace a = true /\ forallb isWhiteSpace b = true
         /\ l' = a ++ l ++ b) ls ls' ->
  forallb isLine ls = true -> forallb isLine ls' = true ->
  getHeadings (join ls' [LF]) = getHeadings (join ls [LF]).
Proof.
  intros F H H'. rewrite (getHeadings_join _ H), (getHeadings_join _ H').
  unfold scanLines. f_equal. generalize (false, @nil Heading).
  clear H H'. induction F as [|l l' ls ls' (a & b & Ha & Hb & ->) F IH];
    intros st; [reflexivity|].
  cbn [fold_left].
  rewrite (scanLine_trim st (a ++ l ++ b) l (trim_padded a l b Ha Hb)).
  apply IH.
Qed.

Lemma X14_line_padding_ignored_witness :
  getHeadings (casing := latin1Casing)
    (join [lit "  # A" ++ [13]%N; lit "text" ++ [13]%N; [9]%N ++ lit "## B"] [LF])
  = getHeadings (casing := latin1Casing)
      (join [lit "# A"; lit "text"; lit "## B"] [LF]).
Proof.
  apply (X14_line_padding_ignored latin1Casing
           [lit "# A"; lit "text"; lit "## B"]
           [lit "  # A" ++ [13]%N; lit "text" ++ [13]%N; [9]%N ++ lit "## B"]);
    [|reflexivity|reflexivity].
  repeat constructor.
  - exists (lit "  "), [13]%N. repeat split; reflexivity.
  - exists [], [13]%N. repeat split; reflexivity.
  - exists [9]%N, []. repeat split; reflexivity.
Defined.

(** X15: texts one after the other.  The headings of a text followed by a
    line feed and a second text start with the headings of the first
    text; when the first text has an even number of fence lines, they are
    the headings of the first text followed by those of the second. *)
Theorem X15_headings_of_two_texts (casing : Casing) (a b : jsstring) :
  (exists more, getHeadings (a ++ LF :: b) = getHeadings a ++ more)
  /\ (Nat.even (countFences (split a [LF])) = true ->
      getHeadings (a ++ LF :: b) = getHeadings a ++ getHeadings b).
Proof.
  unfold getHeadings. rewrite split_app_LF. split.
  - unfold scanLines. rewrite fold_left_app.
    rewrite (scan_state false [] (split a [LF])). cbn [app].
    rewrite scan_state. cbn [snd]. eexists. reflexivity.
  - intros E. apply scanLines_app, E.
Qed.

Lemma X15_headings_of_two_texts_witness :
  getHeadings (casing := latin1Casing)
    ((lit "# A" ++ [LF] ++ lit "```" ++ [LF] ++ lit "# x" ++ [LF] ++ lit "```")
     ++ LF :: lit "## B")
  = getHeadings (casing := latin1Casing)
      (lit "# A" ++ [LF] ++ lit "```" ++ [LF] ++ lit "# x" ++ [LF] ++ lit "```")
    ++ getHeadings (casing := latin1Casing) (lit "## B").
Proof.
  apply (proj2 (X15_headings_of_two_texts latin1Casing
                  (lit "# A" ++ [LF] ++ lit "```" ++ [LF] ++ lit "# x" ++ [LF]
                   ++ lit "```")
                  (lit "## B"))).
  reflexivity.
Defined.

(** X16: a line gives one heading at most and a fence line gives none: a
    text has no more headings than it has lines that are not fence
    lines. *)
Theorem X16_headings_bounded_by_lines (casing : Casing) (md : jsstring) :
  length (getHeadings md) + countFences (split md [LF])
  <= length (split md [LF]).
Proof.
  unfold getHeadings, scanLines.
  assert (G : forall lines b hs,
             length (snd (fold_left scanLine lines (b, hs))) + countFences lines
             <= length hs + length lines).
  { induction lines as [|l lines IH]; intros b hs.
    - cbn. lia.
    - unfold countFences in *. cbn [fold_left filter length].
      destruct (isFenceLine l) eqn:F.
      + rewrite (scanLine_fence _ _ _ F). specialize (IH (negb b) hs).
        cbn [length]. lia.
      + destruct b.
        * rewrite (scanLine_inside _ _ F). specialize (IH true hs). lia.
        * rewrite (scanLine_outside _ _ F).
          specialize (IH false (hs ++ headingsOfLine l)).
          rewrite length_app in IH. pose proof (headingsOfLine_length l). lia. }
  exact (G (split md [LF]) false []).
Qed.

(** ** Fence lines *)

Lemma trimEnd_cons (c : codeUnit) (s : jsstring) :
  isWhiteSpace c = false -> trimEnd (c :: s) = c :: trimEnd s.
Proof.
  intros Hc. unfold trimEnd. cbn [rev].
  rewrite (dropWhile_app isWhiteSpace (rev s) [c]).
  destruct (dropWhile isWhiteSpace (rev s)) as [|d u]; cbn [isEmpty].
  - rewrite (dropWhile_head _ _ _ Hc). reflexivity.
  - rewrite rev_app_distr. reflexivity.
Qed.

Lemma trim_indented (indent : jsstring) (c : codeUnit) (rest : jsstring) :
  forallb isWhiteSpace indent = true -> isWhiteSpace c = false ->
  trim (indent ++ c :: rest) = c :: trimEnd rest.
Proof.
  intros Hi Hc. unfold trim, trimStart.
  rewrite (dropWhile_app isWhiteSpace indent), (dropWhile_all _ _ Hi).
  cbn [isEmpty]. rewrite (dropWhile_head _ _ _ Hc). apply (trimEnd_cons _ _ Hc).
Qed.

(** X17: what a fence line is.  A line that starts, after white space or
    none, with three backticks toggles the fence and adds no heading,
    whatever follows the backticks on the line: an info string, more
    backticks, or a whole code span with its closing backticks.  A line
    that starts, after white space or none, with anything else than a
    backtick (a tilde fence, say) is no fence line, nor is a blank
    line. *)
Theorem X17_fence_lines (casing : Casing) (indent rest : jsstring) :
  forallb isWhiteSpace indent = true ->
  (forall b hs,
     scanLine (b, hs) (indent ++ [backtick; backtick; backtick] ++ rest)
     = (negb b, hs))
  /\ (forall c,
        isWhiteSpace c = false -> c <> backtick ->
        isFenceLine (indent ++ c :: rest) = false)
  /\ isFenceLine indent = false.
Proof.
  intros Hi. split; [|split].
  - intros b hs. apply scanLine_fence. unfold isFenceLine.
    cbn [app]. rewrite (trim_indented indent backtick _ Hi eq_refl).
    rewrite !(trimEnd_cons backtick _ eq_refl).
    unfold codeFenceRegex_test. cbn [startsWith]. rewrite !N.eqb_refl.
    apply startsWith_nil.
  - intros c Hc Hne. unfold isFenceLine.
    rewrite (trim_indented indent c rest Hi Hc).
    unfold codeFenceRegex_test. cbn [startsWith].
    destruct (backtick =? c)%N eqn:E; [|reflexivity].
    apply N.eqb_eq in E. symmetry in E. contradiction.
  - unfold isFenceLine, trim, trimStart. rewrite (dropWhile_all _ _ Hi).
    reflexivity.
Qed.

Lemma X17_fence_lines_witness :
  scanLine (casing := latin1Casing) (false, [])
    (lit "  " ++ [backtick; backtick; backtick] ++ lit "js let x = 1 ```")
  = (true, [])
  /\ isFenceLine (lit "  " ++ 126%N :: lit "~~") = false.
Proof.
  destruct (X17_fence_lines latin1Casing (lit "  ") (lit "js let x = 1 ```") eq_refl)
    as (H1 & _).
  destruct (X17_fence_lines latin1Casing (lit "  ") (lit "~~") eq_refl)
    as (_ & H2 & _).
  split; [apply H1 | apply H2; [reflexivity | discriminate]].
Defined.

(** ** Texts with and without a block *)

Lemma split_single (sep s : jsstring) :
  sep <> [] -> includes s sep = false -> splitFrom sep 0 s = [s].
Proof.
  intros Hsep. induction s as [|c s IH]; [reflexivity|].
  rewrite includes_unfold. intros H. apply orb_false_iff in H.
  destruct H as [H1 H2]. cbn [splitFrom]. rewrite H1, (IH H2). reflexivity.
Qed.

Lemma startsWith_long (x y p : jsstring) :
  length p <= length x -> startsWith (x ++ y) p = startsWith x p.
Proof.
  revert x. induction p as [|a p IH]; intros x H.
  - rewrite !startsWith_nil. reflexivity.
  - destruct x as [|b x]; [cbn in H; lia|].
    cbn [app startsWith]. rewrite IH; [reflexivity | cbn in H; lia].
Qed.

(** A text, a fence and what follows: when no fence starts in the text,
    not even one that the first hyphens of the fence would complete, the
    text is the first segment. *)
Lemma split_delimiter_app (a b : jsstring) :
  includes (a ++ [hyphen; hyphen]) delimiter = false ->
  split (a ++ delimiter ++ b) delimiter = a :: split b delimiter.
Proof.
  unfold split, delimiter. induction a as [|c a IH].
  - intros _. cbn [app splitFrom startsWith]. rewrite !N.eqb_refl, startsWith_nil.
    reflexivity.
  - rewrite includes_unfold. intros H. apply orb_false_iff in H.
    destruct H as [H1 H2]. cbn [app] in H1, H2.
    change ((c :: a) ++ [45; 45; 45]%N ++ b)
      with (c :: (a ++ [45; 45; 45]%N ++ b)).
    cbn [splitFrom].
    assert (S : startsWith (c :: a ++ [45; 45; 45]%N ++ b) [45; 45; 45]%N = false).
    { rewrite <- H1.
      change (c :: a ++ [45; 45; 45]%N ++ b)
        with ((c :: a) ++ [45; 45]%N ++ 45%N :: b).
      rewrite app_assoc.
      apply (startsWith_long ((c :: a) ++ [45; 45]%N) (45%N :: b)).
      rewrite length_app. cbn. lia. }
    rewrite S.
    etransitivity; [apply (f_equal (consHead c)); exact (IH H2) | reflexivity].
Qed.

(** X18: a text without "---".  A text holds no fence exactly when it is
    its only segment; such a text is returned whole as the article:
    [process] without a schema and [processMarkdown] with or without one
    return it as soon as the renderer does, with no frontmatter or the
    empty object, and [process] with a schema throws "No yaml found". *)
Theorem X18_text_without_fence (casing : Casing) (libs : Libraries) (T : Type)
    (md : jsstring) :
  (includes md delimiter = false <-> split md delimiter = [md])
  /\ (includes md delimiter = false ->
      forall html,
        marked_parse Sync.highlightOptions md = inr html ->
        Sync.process md (@None (ZodSchema T))
        = inr {| Sync.article := md; Sync.headings := getHeadings md;
                 Sync.html := html; Sync.frontmatter := None |}
        /\ (forall schema : ZodSchema T,
              Sync.process md (Some schema) = inl (Error noYamlMessage)))
  /\ (includes md delimiter = false ->
      forall shiki (schema : option (ZodSchema T)) html,
        marked_parse (Async.highlightOptions shiki) md = inr html ->
        Async.processMarkdown
          {| Async.md := md; Async.shiki := shiki;
             Async.frontmatterSchema := schema |}
        = inr {| Async.article := md; Async.headings := getHeadings md;
                 Async.html := html; Async.frontmatter := Async.EmptyObject |}).
Proof.
  assert (Single : includes md delimiter = false -> split md delimiter = [md]).
  { apply (split_single delimiter md). discriminate. }
  assert (NoBlock : includes md delimiter = false ->
            truthy (nth_error (split md delimiter) 1) = false).
  { intros H. rewrite (Single H). reflexivity. }
  split; [split; [exact Single|]|split].
  - intros E.
    pose proof (splitFrom_segments delimiter 0 md
                  (fun H : delimiter = [] => nil_cons (eq_sym H))) as F.
    change (splitFrom delimiter 0 md) with (split md delimiter) in F.
    rewrite E in F. inversion F. assumption.
  - intros H html Hr. split.
    + rewrite (process_no_block md None (NoBlock H)), Hr. reflexivity.
    + intros schema.
      rewrite (process_no_block md (Some schema) (NoBlock H)), Hr. reflexivity.
  - intros H shiki schema html Hr.
    rewrite (processMarkdown_whole md shiki schema (or_introl (NoBlock H))), Hr.
    reflexivity.
Qed.

Lemma X18_text_without_fence_witness :
  Sync.process (casing := latin1Casing) (libs := sampleLibraries)
    (lit "# A -- B") (@None (ZodSchema jsstring))
  = inr {| Sync.article := lit "# A -- B";
           Sync.headings := getHeadings (casing := latin1Casing) (lit "# A -- B");
           Sync.html := lit "<p># A -- B</p>"; Sync.frontmatter := None |}.
Proof.
  destruct (X18_text_without_fence latin1Casing sampleLibraries jsstring
              (lit "# A -- B")) as (_ & H & _).
  apply (H eq_refl (lit "<p># A -- B</p>")). reflexivity.
Defined.

(** X19: a text with a block.  For a text made of a beginning, a fence, a
    block that is not empty, a second fence and a body, where neither the
    beginning nor the block holds a fence or ends in a hyphen, the second
    segment is the block and the article is the body, as it is, whatever
    fences the body holds.  With a schema that accepts what the loader
    reads from the block, both entry points return the body as the
    article, its headings, its rendering and the validated frontmatter. *)
Theorem X19_text_with_block (casing : Casing) (libs : Libraries) (T : Type)
    (seg0 yaml body : jsstring) :
  yaml <> [] ->
  includes (seg0 ++ [hyphen; hyphen]) delimiter = false ->
  includes (yaml ++ [hyphen; hyphen]) delimiter = false ->
  let md := seg0 ++ delimiter ++ yaml ++ delimiter ++ body in
  nth_error (split md delimiter) 1 = Some yaml
  /\ join (skipn 2 (split md delimiter)) delimiter = body
  /\ (forall (schema : ZodSchema T) loaded data,
        load yaml = inr loaded ->
        safeParse schema loaded = ParseSuccess data ->
        (forall html,
           marked_parse Sync.highlightOptions body = inr html ->
           Sync.process md (Some schema)
           = inr {| Sync.article := body; Sync.headings := getHeadings body;
                    Sync.html := html; Sync.frontmatter := Some data |})
        /\ (forall shiki html,
              marked_parse (Async.highlightOptions shiki) body = inr html ->
              Async.processMarkdown
                {| Async.md := md; Async.shiki := shiki;
                   Async.frontmatterSchema := Some schema |}
              = inr {| Async.article := body; Async.headings := getHeadings body;
                       Async.html := html;
                       Async.frontmatter := Async.Parsed data |})).
Proof.
  intros Hy H0 H1 md.
  assert (E : split md delimiter = seg0 :: yaml :: split body delimiter).
  { unfold md. rewrite (split_delimiter_app seg0 _ H0).
    rewrite (split_delimiter_app yaml _ H1). reflexivity. }
  assert (J : join (split body delimiter) delimiter = body)
    by apply join_split_delimiter.
  split; [rewrite E; reflexivity|]. split; [rewrite E; exact J|].
  intros schema loaded data Hl Hp.
  pose proof (getFrontmatter_valid yaml schema loaded data Hl Hp) as G.
  split.
  - intros html Hr.
    rewrite (process_block md (Some schema) seg0 yaml _ E Hy), J, Hr.
    cbn [bind]. rewrite G. reflexivity.
  - intros shiki html Hr.
    rewrite (processMarkdown_block md shiki schema seg0 yaml _ E Hy), G, J.
    cbn [bind]. rewrite Hr. reflexivity.
Qed.

Lemma X19_text_with_block_witness :
  Sync.process (casing := latin1Casing) (libs := sampleLibraries)
    ([] ++ delimiter ++ ([LF] ++ lit "title: x" ++ [LF]) ++ delimiter
     ++ ([LF] ++ lit "# A" ++ [LF] ++ lit "---" ++ [LF] ++ lit "b"))
    (Some acceptingSchema)
  = inr {| Sync.article := [LF] ++ lit "# A" ++ [LF] ++ lit "---" ++ [LF] ++ lit "b";
           Sync.headings :=
             getHeadings (casing := latin1Casing)
               ([LF] ++ lit "# A" ++ [LF] ++ lit "---" ++ [LF] ++ lit "b");
           Sync.html := lit "<p>" ++ [LF] ++ lit "# A" ++ [LF] ++ lit "---"
                        ++ [LF] ++ lit "b</p>";
           Sync.frontmatter := Some (lit "title: x") |}.
Proof.
  destruct (X19_text_with_block latin1Casing sampleLibraries jsstring
              [] ([LF] ++ lit "title: x" ++ [LF])
              ([LF] ++ lit "# A" ++ [LF] ++ lit "---" ++ [LF] ++ lit "b"))
    as (_ & _ & H); [discriminate | reflexivity | reflexivity |].
  destruct (H acceptingSchema (lit "title: x") (lit "title: x") eq_refl eq_refl)
    as (Hp & _).
  apply Hp. reflexivity.
Defined.
